(** * SmartLearn Playwright tests: retry executor and selector manager

    A shallow embedding of [utils/helpers/testRetry.js] and
    [utils/helpers/selectorManager.js], and of the course page object that
    composes them.

    Conventions.
    - A JavaScript number is a binary64 floating-point number. The delays,
      which the code multiplies, are modelled by Rocq's primitive [float],
      whose multiplication rounds as the code's does. Attempt numbers and
      [maxRetries] are taken to be integers; they are modelled by [Z], and
      the statistics counters by [nat], which is exact up to 2^53. The
      theorems in which the size of [maxRetries] matters bound it by 2^53.
    - How a delay prints inside a template literal is a parameter,
      [numberToString]; a count prints as its decimal digits ([num]), which
      is what JavaScript prints below 10^21.
    - What an action rejects with is an object ([JsError]), whose [message]
      is a string or is missing.
    - A JavaScript string is modelled by [string]; [includes] and [join]
      only depend on the sequence structure.
    - [async] functions are awaited one after the other, so a call is a
      function from the state before to the state after, together with the
      events it produced, in order. *)

From Stdlib Require Import ZArith List Ascii Floats.
From stdpp Require Import base strings pretty list gmap fin_maps.
Import ListNotations.

Local Open Scope string_scope.
Local Open Scope list_scope.
Local Open Scope Z_scope.

(** ** JavaScript helpers *)

(** [String.prototype.includes]: [pattern] occurs in [s] as a contiguous
    run of code units. *)
Fixpoint includes (s pattern : string) : bool :=
  String.prefix pattern s ||
  match s with
  | EmptyString => false
  | String _ rest => includes rest pattern
  end.

(** [Array.prototype.some]. *)
Definition some {A : Type} (p : A -> bool) (l : list A) : bool := existsb p l.

(** [Array.prototype.join]. *)
Definition join (sep : string) (l : list string) : string := String.concat sep l.

(** A number inside a template literal. *)
Definition num (z : Z) : string := pretty z.

(** The exact value of a number that is an integer, [None] for the others
    (fractions, infinities, NaN). *)
Definition integer_value (x : float) : option Z :=
  match Prim2SF x with
  | S754_zero _ => Some 0
  | S754_finite negative m e =>
      let magnitude :=
        if 0 <=? e then Some (Z.pos m * 2 ^ e)
        else if Z.pos m mod 2 ^ (- e) =? 0 then Some (Z.pos m / 2 ^ (- e))
        else None in
      (fun z => if negative then - z else z) <$> magnitude
  | _ => None
  end.

(** The one-character string made of a double quote. *)
Definition dquote : string := String "034"%char EmptyString.

(** A string is truthy when it is not empty. *)
Definition truthy (s : string) : bool :=
  match s with
  | EmptyString => false
  | String _ _ => true
  end.

(** The rest of [s] after the literal [p], when [s] starts with [p]. *)
Fixpoint strip_prefix (p s : string) : option string :=
  match p with
  | EmptyString => Some s
  | String a p' =>
    match s with
    | EmptyString => None
    | String c s' => if Ascii.eqb a c then strip_prefix p' s' else None
    end
  end.

(** The characters of [s] before its first double quote, when it has one. *)
Fixpoint until_quote (s : string) : option string :=
  match s with
  | EmptyString => None
  | String c rest =>
    if Ascii.eqb c "034"%char then Some EmptyString
    else String c <$> until_quote rest
  end.

(** The group of the pattern [([^"]+)"] matched at the start of [s]: a
    class that excludes the quote can only stop at the first quote, so the
    group is the text before the first quote, and the match needs that text
    to be non-empty and the quote to be there. *)
Definition capture_at (s : string) : option string :=
  match until_quote s with
  | Some (String c value) => Some (String c value)
  | _ => None
  end.

(** [s.match(/lit([^"]+)"/)?.[1]] for a literal [lit]: the group of the
    leftmost match, [None] (undefined) when there is no match. *)
Fixpoint match_quoted (lit s : string) : option string :=
  let here :=
    match strip_prefix lit s with
    | Some rest => capture_at rest
    | None => None
    end in
  match here with
  | Some value => Some value
  | None =>
    match s with
    | EmptyString => None
    | String _ rest => match_quoted lit rest
    end
  end.

(** ** TestRetryManager (utils/helpers/testRetry.js) *)

Module TestRetryManager.

(** An error object raised by the action. [ref] is the identity of the
    object; [message] is its [.message] property, which may be undefined. *)
Record JsError := { ref : nat; message : option string }.

(** [${error.message}] inside a template literal. *)
Definition message_text (e : JsError) : string :=
  match message e with
  | Some m => m
  | None => "undefined"
  end.

(** What a call can be rejected with. *)
Inductive thrown :=
| Caught (e : JsError)        (* [throw error]: the object the action raised *)
| NewError (text : string)    (* [throw new Error(text)] *)
| TypeError (text : string).  (* raised by the runtime *)

Inductive outcome (T : Type) :=
| Resolved (value : T)
| Rejected (t : thrown).
Arguments Resolved {T} value.
Arguments Rejected {T} t.

(** Observable effects of the executor, in program order. *)
Inductive event :=
| Call                  (* [await testFunc()] *)
| Log (text : string)   (* [console.log] *)
| Warn (text : string)  (* [console.warn] *)
| Sleep (ms : float).   (* [await new Promise(r => setTimeout(r, ms))] *)

(** The destructured configuration object, with its defaults. *)
Record config := {
  maxRetries : Z;
  initialDelay : float;
  backoffMultiplier : float;
  testName : string;
  retryableErrors : list string
}.

Definition default_retryableErrors : list string :=
  ["timeout"; "Timeout"; "Navigation"; "ERR_NAME_NOT_RESOLVED"; "net::ERR"].

Definition default_config : config :=
  {| maxRetries := 3; initialDelay := 500%float; backoffMultiplier := 2%float;
     testName := "Unknown"; retryableErrors := default_retryableErrors |}.

(** The message of [error] contains one of the patterns: the error is
    classified as retryable. *)
Definition matches_retryable (error : JsError) (retryableErrors : list string) : bool :=
  some (fun pattern => includes (default EmptyString (message error)) pattern)
       retryableErrors.

(** [static shouldRetry(error, attempt, maxRetries, retryableErrors)] *)
Definition shouldRetry (error : JsError) (attempt maxRetries : Z)
    (retryableErrors : list string) : bool :=
  if attempt >=? maxRetries then false
  else
    let errorMessage := default EmptyString (message error) in
    some (fun pattern => includes errorMessage pattern) retryableErrors.

Section Executor.
(** [T] is the type of the value the action resolves with, [St] the state
    of whatever the action acts upon. *)
Context {T St : Type}.
(** [numberToString delay] is [${delay}]. *)
Variable numberToString : float -> string.
Variable testFunc : St -> (T + JsError) * St.
Variable cfg : config.

Definition passed_text (attempt : Z) : string :=
  "✓ [" +:+ testName cfg +:+ "] Passed on attempt " +:+ num attempt +:+ "/"
    +:+ num (maxRetries cfg).

Definition failed_text (attempt : Z) (error : JsError) : string :=
  "⚠ [" +:+ testName cfg +:+ "] Attempt " +:+ num attempt +:+ "/"
    +:+ num (maxRetries cfg) +:+ " failed: " +:+ message_text error.

Definition retrying_text (delay : float) : string :=
  "  Retrying in " +:+ numberToString delay +:+ "ms... (Exponential backoff)".

Definition exhausted_text (lastError : JsError) : string :=
  "[" +:+ testName cfg +:+ "] Failed after " +:+ num (maxRetries cfg)
    +:+ " attempts. Last error: " +:+ message_text lastError.

(** The statement after the loop. *)
Definition after_loop (lastError : option JsError) : thrown :=
  match lastError with
  | Some e => NewError (exhausted_text e)
  | None => TypeError "Cannot read properties of undefined (reading 'message')"
  end.

(** The [for] loop, from the test of its condition on. [fuel] bounds the
    number of condition tests; [None] means the bound was too small. *)
Fixpoint loop (fuel : nat) (attempt : Z) (delay : float) (lastError : option JsError)
    (s : St) : option (outcome T * list event * St) :=
  match fuel with
  | O => None
  | S fuel' =>
    if attempt <=? maxRetries cfg then
      match testFunc s with
      | (inl result, s1) =>
          Some (Resolved result,
                Call :: (if 1 <? attempt then [Log (passed_text attempt)] else []),
                s1)
      | (inr error, s1) =>
          if shouldRetry error attempt (maxRetries cfg) (retryableErrors cfg) then
            match loop fuel' (attempt + 1) (delay * backoffMultiplier cfg)%float
                       (Some error) s1 with
            | Some (r, evs, s2) =>
                Some (r,
                      Call :: Warn (failed_text attempt error)
                           :: Log (retrying_text delay)
                           :: Sleep delay :: evs,
                      s2)
            | None => None
            end
          else Some (Rejected (Caught error), [Call], s1)
      end
    else Some (Rejected (after_loop lastError), [], s)
  end.

(** [static async executeWithRetry(testFunc, config)] *)
Definition executeWithRetry (s : St) : option (outcome T * list event * St) :=
  loop (S (Z.to_nat (maxRetries cfg))) 1 (initialDelay cfg) None s.

(** The state the action has left behind after [k] invocations. *)
Fixpoint after_calls (k : nat) (s : St) : St :=
  match k with
  | O => s
  | S k' => after_calls k' (snd (testFunc s))
  end.

(** Invoked in state [s], the action raises an error that is classified
    as retryable. *)
Definition fails_retryably (s : St) : bool :=
  match fst (testFunc s) with
  | inr error => matches_retryable error (retryableErrors cfg)
  | inl _ => false
  end.
End Executor.

(** Number of invocations of the action and the delays slept, read off the
    events. *)
Fixpoint calls (evs : list event) : nat :=
  match evs with
  | [] => O
  | Call :: evs' => S (calls evs')
  | _ :: evs' => calls evs'
  end.

Fixpoint sleeps (evs : list event) : list float :=
  match evs with
  | [] => []
  | Sleep ms :: evs' => ms :: sleeps evs'
  | _ :: evs' => sleeps evs'
  end.

(** The calls and the sleeps of a run, in order, without the console
    output. *)
Fixpoint timeline (evs : list event) : list event :=
  match evs with
  | [] => []
  | Call :: evs' => Call :: timeline evs'
  | Sleep ms :: evs' => Sleep ms :: timeline evs'
  | _ :: evs' => timeline evs'
  end.

(** [delay] multiplied [i] times by [multiplier], each product computed, and
    rounded, as [delay *= backoffMultiplier] computes it. *)
Definition grow (multiplier : float) (i : nat) (delay : float) : float :=
  Nat.iter i (fun delay => (delay * multiplier)%float) delay.

(** The delay of the sleep that follows attempt [i + 1]. *)
Definition backoff (cfg : config) (i : nat) : float :=
  grow (backoffMultiplier cfg) i (initialDelay cfg).

(** [k] attempts in a row, each followed by its sleep, starting with
    [delay]. *)
Definition retried_from (multiplier : float) (delay : float) (k : nat) : list event :=
  flat_map (fun i => [Call; Sleep (grow multiplier i delay)]) (seq 0 k).

(** Events produced before the rest of a run. *)
Definition prepend {T St : Type} (evs0 : list event)
    (res : option (outcome T * list event * St)) : option (outcome T * list event * St) :=
  match res with
  | Some (r, evs, s) => Some (r, evs0 ++ evs, s)
  | None => None
  end.

(** [await executeWithRetry(testFunc, config)] as a caller sees it: the call
    run to its end. The bound of the loop is never reached, so the last case
    does not occur. *)
Definition await_executeWithRetry {T St : Type} (numberToString : float -> string)
    (testFunc : St -> (T + JsError) * St)
    (cfg : config) (s : St) : outcome T * list event * St :=
  match executeWithRetry numberToString testFunc cfg s with
  | Some res => res
  | None => (Rejected (after_loop cfg None), [], s)
  end.

(** *** The instance: retry statistics *)

(** One element of [stats.errors]. *)
Record logged_error := { logged_message : option string; timestamp : string }.

(** The value of one entry of [retryStats]. *)
Record retry_stats := {
  totalAttempts : nat;
  failureAttempts : nat;
  successOnRetry : nat;
  errors : list logged_error
}.

Definition no_stats : retry_stats :=
  {| totalAttempts := 0; failureAttempts := 0; successOnRetry := 0; errors := [] |}.

(** The fields of an instance. No method uses the logger or writes to
    [errorClassification]. *)
Record t := {
  logger : list string;
  retryStats : gmap string retry_stats;
  errorClassification : gmap string string
}.

(** [constructor(logger)] *)
Definition new (logger : list string) : t :=
  {| logger := logger; retryStats := ∅; errorClassification := ∅ |}.

(** [recordRetryAttempt(testName, attempt, success, error = null)]. [now] is
    what [new Date().toISOString()] gives at the time of the call. *)
Definition recordRetryAttempt (now : string) (testName : string) (attempt : Z)
    (success : bool) (error : option JsError) (m : t) : t :=
  let key := testName in
  let stats :=
    match retryStats m !! key with
    | Some stats => stats
    | None => no_stats
    end in
  let total := S (totalAttempts stats) in
  let failures :=
    if negb success then S (failureAttempts stats) else failureAttempts stats in
  let onRetry :=
    if negb success then successOnRetry stats
    else if 1 <? attempt then S (successOnRetry stats) else successOnRetry stats in
  let errs :=
    match error with
    | Some e => errors stats ++ [{| logged_message := message e; timestamp := now |}]
    | None => errors stats
    end in
  {| logger := logger m;
     retryStats :=
       <[key := {| totalAttempts := total; failureAttempts := failures;
                   successOnRetry := onRetry; errors := errs |}]> (retryStats m);
     errorClassification := errorClassification m |}.

(** [clearStats()] *)
Definition clearStats (m : t) : t :=
  {| logger := logger m; retryStats := ∅; errorClassification := ∅ |}.

(** The arguments of one [recordRetryAttempt] call. *)
Record attempt_report := {
  at_time : string;
  of_test : string;
  attempt_number : Z;
  succeeded : bool;
  with_error : option JsError
}.

Definition report (r : attempt_report) (m : t) : t :=
  recordRetryAttempt (at_time r) (of_test r) (attempt_number r) (succeeded r)
    (with_error r) m.

(** A series of [recordRetryAttempt] calls, first to last. *)
Definition report_all (rs : list attempt_report) (m : t) : t :=
  fold_left (fun acc r => report r acc) rs m.

(** The statistics of a test, all zero when it has no entry. *)
Definition stats_of (testName : string) (m : t) : retry_stats :=
  default no_stats (retryStats m !! testName).

(** How many of the reports satisfy [p]. *)
Definition count_reports (p : attempt_report -> bool) (rs : list attempt_report) : nat :=
  length (List.filter p rs).

(** The calls a client can make on an instance. *)
Inductive op :=
| RecordRetryAttempt (r : attempt_report)
| ClearStats.

Definition step (o : op) (m : t) : t :=
  match o with
  | RecordRetryAttempt r => report r m
  | ClearStats => clearStats m
  end.

Definition run (ops : list op) (m : t) : t := fold_left (fun acc o => step o acc) ops m.

(** Every entry has been counted at least once, and its other counters are
    bounded by its total. *)
Definition entries_sound (m : t) : Prop :=
  forall key st, retryStats m !! key = Some st ->
    (1 <= totalAttempts st)%nat /\
    (failureAttempts st + successOnRetry st <= totalAttempts st)%nat /\
    (length (errors st) <= totalAttempts st)%nat.

End TestRetryManager.

(** ** SelectorManager (utils/helpers/selectorManager.js) *)

Module SelectorManager.

(** [page.locator(selector)]: a lazy handle, built without touching the
    page. *)
Inductive Locator := locator (selector : string).

(** The value of one entry of [selectorAttempts]. *)
Record stats := { success : nat; failure : nat }.

(** What the logger received, in program order. *)
Inductive record :=
| Log (text : string)
| Debug (text : string)
| Error (text : string).

(** The fields of an instance. The logger is represented by the records it
    has been sent. *)
Record t := {
  logger : list record;
  selectorCache : gmap string string;
  selectorAttempts : gmap string stats
}.

(** [constructor(logger)] *)
Definition new (logger : list record) : t :=
  {| logger := logger; selectorCache := ∅; selectorAttempts := ∅ |}.

Definition write (r : record) (m : t) : t :=
  {| logger := logger m ++ [r];
     selectorCache := selectorCache m;
     selectorAttempts := selectorAttempts m |}.

Definition cache_set (key selector : string) (m : t) : t :=
  {| logger := logger m;
     selectorCache := <[key := selector]> (selectorCache m);
     selectorAttempts := selectorAttempts m |}.

(** [recordAttempt(elementName, selector, success)]: the entry is created
    with both counters at zero when it is missing, then one of its counters
    is incremented in place. *)
Definition recordAttempt (elementName selector : string) (ok : bool) (m : t) : t :=
  let key := elementName +:+ "_" +:+ selector in
  let attempts :=
    match selectorAttempts m !! key with
    | Some _ => selectorAttempts m
    | None => <[key := {| success := 0; failure := 0 |}]> (selectorAttempts m)
    end in
  let stats := default {| success := 0; failure := 0 |} (attempts !! key) in
  {| logger := logger m;
     selectorCache := selectorCache m;
     selectorAttempts :=
       <[key := if ok
                then {| success := S (success stats); failure := failure stats |}
                else {| success := success stats; failure := S (failure stats) |}]>
         attempts |}.

(** [clearCache()] *)
Definition clearCache (m : t) : t :=
  {| logger := logger m; selectorCache := ∅; selectorAttempts := selectorAttempts m |}.

(** [getStats()]: the entries of [selectorAttempts] as a plain object. *)
Definition getStats (m : t) : gmap string stats := selectorAttempts m.

(** [generateFallbackSelectors(baseSelector)] *)
Definition generateFallbackSelectors (baseSelector : string) : list string :=
  let fallbacks := [] in
  let fallbacks :=
    if includes baseSelector ("data-test=" +:+ dquote) then
      match match_quoted ("data-test=" +:+ dquote) baseSelector with
      | Some attrValue =>
          if truthy attrValue
          then fallbacks ++ ["[data-testid=" +:+ dquote +:+ attrValue +:+ dquote +:+ "]"]
          else fallbacks
      | None => fallbacks
      end
    else fallbacks in
  let fallbacks :=
    if includes baseSelector ("id=" +:+ dquote) then
      match match_quoted ("id=" +:+ dquote) baseSelector with
      | Some idValue =>
          if truthy idValue then fallbacks ++ ["#" +:+ idValue] else fallbacks
      | None => fallbacks
      end
    else fallbacks in
  let fallbacks :=
    if includes baseSelector ("name=" +:+ dquote) then
      match match_quoted ("name=" +:+ dquote) baseSelector with
      | Some nameValue =>
          if truthy nameValue
          then fallbacks ++ ["input[name=" +:+ dquote +:+ nameValue +:+ dquote +:+ "]";
                             "textarea[name=" +:+ dquote +:+ nameValue +:+ dquote +:+ "]"]
          else fallbacks
      | None => fallbacks
      end
    else fallbacks in
  fallbacks.

Section Page.
(** [Page] is the state of the browser page. [waitFor selector timeout]
    is [page.locator(selector).waitFor({ state: 'attached', timeout })]:
    [true] when the promise resolves, [false] when it rejects. *)
Context {Page : Type}.
Variable waitFor : string -> Z -> Page -> bool * Page.

Definition found_text (elementName selector : string) : string :=
  "✓ [" +:+ elementName +:+ "] Found with selector: " +:+ selector.

Definition selector_failed_text (elementName selector : string) : string :=
  "✗ [" +:+ elementName +:+ "] Selector failed: " +:+ selector.

Definition all_failed_text (elementName : string) (allSelectors : list string) : string :=
  "✗ [" +:+ elementName +:+ "] All selectors failed. Tried: "
    +:+ join " | " allSelectors.

(** The [for ... of allSelectors] loop of [smartSelect]. The result is the
    value returned from inside the loop, if any, with the selectors that
    were waited on, in order. *)
Fixpoint scan (elementName cacheKey : string) (selectors : list string)
    (timeout : Z) (m : t) (page : Page) : option Locator * list string * t * Page :=
  match selectors with
  | [] => (None, [], m, page)
  | selector :: rest =>
    match waitFor selector timeout page with
    | (true, page1) =>
        (Some (locator selector), [selector],
         recordAttempt elementName selector true
           (cache_set cacheKey selector
              (write (Log (found_text elementName selector)) m)),
         page1)
    | (false, page1) =>
        let '(r, waited, m2, page2) :=
          scan elementName cacheKey rest timeout
            (write (Debug (selector_failed_text elementName selector))
               (recordAttempt elementName selector false m))
            page1 in
        (r, selector :: waited, m2, page2)
    end
  end.

(** [async smartSelect(page, elementName, primarySelector,
    fallbackSelectors, timeout)]; [None] is [null]. *)
Definition smartSelect (page : Page) (elementName primarySelector : string)
    (fallbackSelectors : list string) (timeout : Z) (m : t)
    : option Locator * list string * t * Page :=
  let cacheKey := elementName +:+ "_" +:+ primarySelector in
  match selectorCache m !! cacheKey with
  | Some cached => (Some (locator cached), [], m, page)
  | None =>
    let allSelectors := primarySelector :: fallbackSelectors in
    match scan elementName cacheKey allSelectors timeout m page with
    | (Some found, waited, m1, page1) => (Some found, waited, m1, page1)
    | (None, waited, m1, page1) =>
        (None, waited, write (Error (all_failed_text elementName allSelectors)) m1,
         page1)
    end
  end.

Definition found_any_text (elementName selector : string) : string :=
  "✓ [" +:+ elementName +:+ "] Found via smartSelectAny: " +:+ selector.

Definition none_matched_text (elementName : string) (selectors : list string) : string :=
  "✗ [" +:+ elementName +:+ "] No selector matched from: " +:+ join " | " selectors.

(** The loop of [smartSelectAny]. *)
Fixpoint scan_any (elementName : string) (selectors : list string)
    (timeout : Z) (m : t) (page : Page) : option Locator * list string * t * Page :=
  match selectors with
  | [] => (None, [], m, page)
  | selector :: rest =>
    match waitFor selector timeout page with
    | (true, page1) =>
        (Some (locator selector), [selector],
         write (Log (found_any_text elementName selector)) m, page1)
    | (false, page1) =>
        let '(r, waited, m2, page2) := scan_any elementName rest timeout m page1 in
        (r, selector :: waited, m2, page2)
    end
  end.

(** [async smartSelectAny(page, elementName, selectors, timeout)] *)
Definition smartSelectAny (page : Page) (elementName : string)
    (selectors : list string) (timeout : Z) (m : t)
    : option Locator * list string * t * Page :=
  match scan_any elementName selectors timeout m page with
  | (Some found, waited, m1, page1) => (Some found, waited, m1, page1)
  | (None, waited, m1, page1) =>
      (None, waited, write (Error (none_matched_text elementName selectors)) m1, page1)
  end.

(** The calls a client can make on an instance, and a run of them against
    one page. *)
Inductive op :=
| SmartSelect (elementName primarySelector : string)
    (fallbackSelectors : list string) (timeout : Z)
| SmartSelectAny (elementName : string) (selectors : list string) (timeout : Z)
| ClearCache
| GetStats.

Definition step (o : op) (mp : t * Page) : t * Page :=
  let '(m, page) := mp in
  match o with
  | SmartSelect elementName primarySelector fallbackSelectors timeout =>
      let '(_, _, m1, page1) :=
        smartSelect page elementName primarySelector fallbackSelectors timeout m in
      (m1, page1)
  | SmartSelectAny elementName selectors timeout =>
      let '(_, _, m1, page1) := smartSelectAny page elementName selectors timeout m in
      (m1, page1)
  | ClearCache => (clearCache m, page)
  | GetStats => let _ := getStats m in (m, page)
  end.

Definition run (ops : list op) (mp : t * Page) : t * Page :=
  fold_left (fun acc o => step o acc) ops mp.

(** The page left behind by waiting, in order, on each of [selectors]. *)
Fixpoint after_waits (selectors : list string) (timeout : Z) (page : Page) : Page :=
  match selectors with
  | [] => page
  | selector :: rest => after_waits rest timeout (snd (waitFor selector timeout page))
  end.

(** No wait in the loop over [selectors] succeeds, starting from [page]. *)
Fixpoint none_resolves (selectors : list string) (timeout : Z) (page : Page) : bool :=
  match selectors with
  | [] => true
  | selector :: rest =>
    match waitFor selector timeout page with
    | (true, _) => false
    | (false, page1) => none_resolves rest timeout page1
    end
  end.
End Page.

Arguments op : clear implicits.

(** The counters of a key, zero when there is no entry. *)
Definition successCount (key : string) (m : t) : nat :=
  match selectorAttempts m !! key with Some s => success s | None => O end.

Definition failureCount (key : string) (m : t) : nat :=
  match selectorAttempts m !! key with Some s => failure s | None => O end.

(** How many of the selectors in [waited] are recorded under [key] when
    they are tried for [elementName]. *)
Definition waits_on (elementName key : string) (waited : list string) : nat :=
  length (List.filter (fun selector => bool_decide (elementName +:+ "_" +:+ selector = key))
            waited).

(** Every cache entry belongs to some call key [elementName_primarySelector]
    and its selector has a recorded success for that element. *)
Definition cache_backed (m : t) : Prop :=
  forall cacheKey selector, selectorCache m !! cacheKey = Some selector ->
    exists elementName primarySelector,
      cacheKey = elementName +:+ "_" +:+ primarySelector /\
      (1 <= successCount (elementName +:+ "_" +:+ selector) m)%nat.

(** A page whose state is the list of selectors that currently match an
    attached element; waiting does not change it. *)
Definition dom := list string.

Definition dom_waitFor (selector : string) (timeout : Z) (d : dom) : bool * dom :=
  (bool_decide (selector ∈ d), d).

End SelectorManager.

(** ** CoursePage (the page object that adds the first product to the cart) *)

Module CoursePage.

(** What the page object prints and what its retry executors do, in program
    order. *)
Inductive entry :=
| Retry (ev : TestRetryManager.event)  (* from [executeWithRetry] around the click *)
| ConsoleLog (text : string)
| ConsoleError (text : string).

(** The error object bound by [catch (error)] for a rejected call; an error
    built by the executor is a new object, numbered [fresh]. *)
Definition caught_error (t : TestRetryManager.thrown) (fresh : nat) : TestRetryManager.JsError :=
  match t with
  | TestRetryManager.Caught e => e
  | TestRetryManager.NewError text => {| TestRetryManager.ref := fresh; TestRetryManager.message := Some text |}
  | TestRetryManager.TypeError text => {| TestRetryManager.ref := fresh; TestRetryManager.message := Some text |}
  end.

Section Driver.
(** The browser page and the three operations of the driver the page object
    uses: waiting for a selector to be attached, clicking the element of a
    locator, and waiting for a selector to be visible. *)
Context {Page : Type}.
Variable numberToString : float -> string.
Variable waitFor : string -> Z -> Page -> bool * Page.
Variable click : string -> Page -> (unit + TestRetryManager.JsError) * Page.
Variable waitForSelector : string -> Z -> Page -> bool * Page.

(** The fields of the page object, the console, and the number of error
    objects the page object has created. *)
Record world := {
  page : Page;
  selectorManager : SelectorManager.t;
  output : list entry;
  errors_made : nat
}.

Definition addToCartButton : string := ".inventory_item:first-child button".
Definition addToCartFallbacks : list string :=
  ["button[data-test*=" +:+ dquote +:+ "add-to-cart" +:+ dquote +:+ "]";
   ".inventory_item button"].
Definition cartBadge : string := ".shopping_cart_badge".

(** The configuration of the retry around the click; the delay and the
    multiplier are the defaults. *)
Definition click_config : TestRetryManager.config :=
  {| TestRetryManager.maxRetries := 2;
     TestRetryManager.initialDelay := 500%float;
     TestRetryManager.backoffMultiplier := 2%float;
     TestRetryManager.testName := "Add to Cart";
     TestRetryManager.retryableErrors := ["timeout"; "Click intercepted"] |}.

(** The body of the [try] block of [enrollFirstCourse]. *)
Definition enroll_body (w : world) : (unit + TestRetryManager.JsError) * world :=
  let '(addBtn, _, manager1, page1) :=
    SelectorManager.smartSelectAny waitFor (page w) "Add to Cart Button"
      (addToCartButton :: addToCartFallbacks) 5000 (selectorManager w) in
  match addBtn with
  | None =>
      (inr {| TestRetryManager.ref := errors_made w;
              TestRetryManager.message := Some "Add to cart button not found" |},
       {| page := page1; selectorManager := manager1; output := output w;
          errors_made := S (errors_made w) |})
  | Some (SelectorManager.locator selector) =>
      match TestRetryManager.await_executeWithRetry numberToString (fun p => click selector p)
              click_config page1 with
      | (TestRetryManager.Resolved _, evs, page2) =>
          let '(_, page3) := waitForSelector cartBadge 3000 page2 in
          (inl tt,
           {| page := page3; selectorManager := manager1;
              output := output w ++ map Retry evs
                          ++ [ConsoleLog "✓ Item added to cart successfully"];
              errors_made := errors_made w |})
      | (TestRetryManager.Rejected t, evs, page2) =>
          (inr (caught_error t (errors_made w)),
           {| page := page2; selectorManager := manager1;
              output := output w ++ map Retry evs;
              errors_made :=
                match t with
                | TestRetryManager.Caught _ => errors_made w
                | _ => S (errors_made w)
                end |})
      end
  end.

(** [async enrollFirstCourse()] *)
Definition enrollFirstCourse (w : world) : (unit + TestRetryManager.JsError) * world :=
  match enroll_body w with
  | (inl done, w1) => (inl done, w1)
  | (inr error, w1) =>
      (inr error,
       {| page := page w1; selectorManager := selectorManager w1;
          output := output w1
                      ++ [ConsoleError ("✗ Failed to add to cart: "
                                          +:+ TestRetryManager.message_text error)];
          errors_made := errors_made w1 |})
  end.

(** The configuration of the outer retry. *)
Definition enroll_config (maxRetries : Z) : TestRetryManager.config :=
  {| TestRetryManager.maxRetries := maxRetries;
     TestRetryManager.initialDelay := 500%float;
     TestRetryManager.backoffMultiplier := 2%float;
     TestRetryManager.testName := "Enroll First Course";
     TestRetryManager.retryableErrors := ["timeout"; "Click"; "intercepted"] |}.

(** [async enrollFirstCourseWithRetry(maxRetries = 3)] *)
Definition enrollFirstCourseWithRetry (maxRetries : Z) (w : world)
    : TestRetryManager.outcome unit * list TestRetryManager.event * world :=
  TestRetryManager.await_executeWithRetry numberToString enrollFirstCourse
    (enroll_config maxRetries) w.

(** The number of clicks recorded in the output. *)
Fixpoint clicks (out : list entry) : nat :=
  match out with
  | [] => O
  | Retry TestRetryManager.Call :: out' => S (clicks out')
  | _ :: out' => clicks out'
  end.
End Driver.

End CoursePage.

(** ** Concrete inputs used in examples *)

Module Examples.
Import TestRetryManager.

(** An action that has no result and counts its invocations; the error of
    invocation [k] is a fresh object with the given message. *)
Definition always_throws (text : string) (k : nat) : (unit + JsError) * nat :=
  (inr {| ref := k; message := Some text |}, S k).

Definition policy (maxRetries : Z) (initialDelay backoffMultiplier : float)
    (retryableErrors : list string) : config :=
  {| maxRetries := maxRetries; initialDelay := initialDelay;
     backoffMultiplier := backoffMultiplier; testName := "login";
     retryableErrors := retryableErrors |}.

(** The selector manager left by a first call for element [X] with
    candidates [A; B; C] on a page where only [B] is attached. *)
Definition after_first_call : SelectorManager.t :=
  snd (fst (SelectorManager.smartSelect SelectorManager.dom_waitFor
              ["B"] "X" "A" ["B"; "C"] 5000 (SelectorManager.new []))).

(** How the numbers of the examples print: an integer below 10^21 prints as
    its decimal digits. The examples use no other number. *)
Definition number_text (x : float) : string :=
  match integer_value x with
  | Some z => if Z.abs z <? 10 ^ 21 then num z else EmptyString
  | None => EmptyString
  end.

(** An action that raises an error with the given message on its first
    [k] invocations and returns [v] afterwards; its state counts the
    invocations. *)
Definition fails_then_returns (k : nat) (text : string) (v : nat) (s : nat)
    : (nat + JsError) * nat :=
  (if (s <? k)%nat then inr {| ref := s; message := Some text |} else inl v, S s).

(** A run that recovers on the third attempt. *)
Definition recovering_run : outcome nat * list event * nat :=
  await_executeWithRetry number_text (fails_then_returns 2 "timeout" 7)
    (policy 4 100%float 3%float ["timeout"]) O.

(** Reports of three attempts of two tests. *)
Definition sample_reports : list attempt_report :=
  [ {| at_time := "t1"; of_test := "login"; attempt_number := 1; succeeded := false;
       with_error := Some {| ref := 0; message := Some "timeout" |} |};
    {| at_time := "t2"; of_test := "login"; attempt_number := 2; succeeded := true;
       with_error := None |};
    {| at_time := "t3"; of_test := "cart"; attempt_number := 1; succeeded := true;
       with_error := None |} ].

(** A page on which only the last add-to-cart selector is attached, a
    click that always succeeds, and a page object that has done nothing
    yet. *)
Definition shop_page : SelectorManager.dom := [".inventory_item button"].

Definition click_ok (selector : string) (d : SelectorManager.dom)
    : (unit + JsError) * SelectorManager.dom := (inl tt, d).

Definition fresh_world (d : SelectorManager.dom) : CoursePage.world :=
  {| CoursePage.page := d; CoursePage.selectorManager := SelectorManager.new [];
     CoursePage.output := []; CoursePage.errors_made := 0 |}.

(** Adding to the cart on that page, with up to three attempts. *)
Definition shop_run : outcome unit * list event * CoursePage.world :=
  CoursePage.enrollFirstCourseWithRetry number_text SelectorManager.dom_waitFor click_ok
    SelectorManager.dom_waitFor 3 (fresh_world shop_page).
End Examples.

(** * Properties of the retry executor *)

Section RetryFacts.
Import TestRetryManager.
Context {T St : Type}.
Variable numberToString : float -> string.
Variable testFunc : St -> (T + JsError) * St.
Variable cfg : config.

Abbreviation n := (maxRetries cfg).
Abbreviation d := (initialDelay cfg).
Abbreviation b := (backoffMultiplier cfg).

Lemma shouldRetry_unfold error attempt :
  shouldRetry error attempt n (retryableErrors cfg) =
  if attempt >=? n then false else matches_retryable error (retryableErrors cfg).
Proof. reflexivity. Qed.

Lemma calls_app evs1 evs2 : calls (evs1 ++ evs2) = (calls evs1 + calls evs2)%nat.
Proof.
  induction evs1 as [|ev evs1 IH]; [reflexivity|].
  destruct ev; simpl; rewrite IH; reflexivity.
Qed.

Lemma sleeps_app evs1 evs2 : sleeps (evs1 ++ evs2) = sleeps evs1 ++ sleeps evs2.
Proof.
  induction evs1 as [|ev evs1 IH]; [reflexivity|].
  destruct ev; simpl; rewrite IH; reflexivity.
Qed.

Lemma timeline_app evs1 evs2 : timeline (evs1 ++ evs2) = timeline evs1 ++ timeline evs2.
Proof.
  induction evs1 as [|ev evs1 IH]; [reflexivity|].
  destruct ev; simpl; rewrite IH; reflexivity.
Qed.

Lemma calls_timeline evs : calls (timeline evs) = calls evs.
Proof.
  induction evs as [|ev evs IH]; [reflexivity|].
  destruct ev; simpl; rewrite ?IH; reflexivity.
Qed.

Lemma sleeps_timeline evs : sleeps (timeline evs) = sleeps evs.
Proof.
  induction evs as [|ev evs IH]; [reflexivity|].
  destruct ev; simpl; rewrite ?IH; reflexivity.
Qed.

Lemma grow_S multiplier i delay :
  grow multiplier (S i) delay = grow multiplier i (delay * multiplier)%float.
Proof.
  unfold grow.
  exact (Nat.iter_succ_r i (fun delay => (delay * multiplier)%float) delay).
Qed.

Lemma retried_from_S multiplier delay k :
  retried_from multiplier delay (S k) =
  [Call; Sleep delay] ++ retried_from multiplier (delay * multiplier)%float k.
Proof.
  unfold retried_from. rewrite <- cons_seq. simpl. f_equal. f_equal.
  rewrite <- seq_shift, flat_map_concat_map, map_map, <- flat_map_concat_map.
  apply flat_map_ext. intros i. rewrite grow_S. reflexivity.
Qed.

Lemma calls_retried multiplier delay k : calls (retried_from multiplier delay k) = k.
Proof.
  revert delay. induction k as [|k IH]; intros delay; [reflexivity|].
  rewrite retried_from_S. simpl. rewrite IH. reflexivity.
Qed.

Lemma sleeps_retried multiplier delay k :
  sleeps (retried_from multiplier delay k) = map (fun i => grow multiplier i delay) (seq 0 k).
Proof.
  revert delay. induction k as [|k IH]; intros delay; [reflexivity|].
  rewrite retried_from_S, <- cons_seq. simpl. rewrite IH. f_equal.
  rewrite <- seq_shift, map_map. apply map_ext. intros i. rewrite grow_S. reflexivity.
Qed.

Lemma prepend_app evs1 evs2 (res : option (outcome T * list event * St)) :
  prepend (evs1 ++ evs2) res = prepend evs1 (prepend evs2 res).
Proof.
  destruct res as [[[r evs] s]|]; simpl; [|reflexivity].
  rewrite <- app_assoc. reflexivity.
Qed.

(** One iteration that ends in a sleep. *)
Lemma loop_retry fuel attempt delay last s error s1 :
  attempt < n ->
  testFunc s = (inr error, s1) ->
  matches_retryable error (retryableErrors cfg) = true ->
  loop numberToString testFunc cfg (S fuel) attempt delay last s =
  prepend [Call; Warn (failed_text cfg attempt error);
           Log (retrying_text numberToString delay); Sleep delay]
    (loop numberToString testFunc cfg fuel (attempt + 1) (delay * b)%float (Some error) s1).
Proof.
  intros Hlt Hf Hm. simpl.
  destruct (Z.leb_spec attempt n); [|lia].
  rewrite Hf, shouldRetry_unfold, Hm.
  destruct (Z.geb_spec attempt n); [lia|].
  destruct (loop _ _ _ fuel _ _ _ _) as [[[r evs] s2]|]; reflexivity.
Qed.

(** One iteration that ends in [throw error]. *)
Lemma loop_rethrow fuel attempt delay last s error s1 :
  attempt <= n ->
  testFunc s = (inr error, s1) ->
  shouldRetry error attempt n (retryableErrors cfg) = false ->
  loop numberToString testFunc cfg (S fuel) attempt delay last s =
  Some (Rejected (Caught error), [Call], s1).
Proof.
  intros Hle Hf Hs. simpl.
  destruct (Z.leb_spec attempt n); [|lia].
  rewrite Hf, Hs. reflexivity.
Qed.

(** [j] iterations in a row that end in a sleep. *)
Lemma loop_retries (j : nat) : forall fuel attempt delay last s,
  attempt + Z.of_nat j <= n ->
  (forall i, (i < j)%nat -> fails_retryably testFunc cfg (after_calls testFunc i s) = true) ->
  exists evs0 last',
    calls evs0 = j /\
    timeline evs0 = retried_from b delay j /\
    loop numberToString testFunc cfg (j + fuel) attempt delay last s =
    prepend evs0
      (loop numberToString testFunc cfg fuel (attempt + Z.of_nat j) (grow b j delay)
         last' (after_calls testFunc j s)).
Proof.
  induction j as [|j IH]; intros fuel attempt delay last s Hle Hfail.
  - exists [], last. split; [reflexivity|]. split; [reflexivity|].
    simpl. rewrite Z.add_0_r.
    destruct (loop _ _ _ fuel _ _ _ _) as [[[r evs] s2]|]; reflexivity.
  - pose proof (Hfail O ltac:(lia)) as H0. unfold fails_retryably in H0. simpl in H0.
    destruct (testFunc s) as [[v|error] s1] eqn:Hf; simpl in H0; [discriminate|].
    destruct (IH fuel (attempt + 1) (delay * b)%float (Some error) s1)
      as (evs0 & last' & Hc & Ht & Hl).
    + lia.
    + intros i Hi. specialize (Hfail (S i) ltac:(lia)). simpl in Hfail.
      rewrite Hf in Hfail. exact Hfail.
    + exists ([Call; Warn (failed_text cfg attempt error);
               Log (retrying_text numberToString delay); Sleep delay] ++ evs0), last'.
      split; [simpl; rewrite Hc; reflexivity|]. split.
      * rewrite retried_from_S. simpl. rewrite Ht. reflexivity.
      * change (S j + fuel)%nat with (S (j + fuel)).
        rewrite (loop_retry _ _ _ _ _ error s1) by (lia || assumption).
        rewrite Hl. simpl after_calls. rewrite Hf. simpl snd.
        replace (attempt + 1 + Z.of_nat j) with (attempt + Z.of_nat (S j)) by lia.
        rewrite <- grow_S.
        symmetry. apply prepend_app.
Qed.

Lemma after_calls_S k s :
  after_calls testFunc (S k) s = snd (testFunc (after_calls testFunc k s)).
Proof.
  revert s. induction k as [|k IH]; intros s; [reflexivity|].
  change (after_calls testFunc (S (S k)) s)
    with (after_calls testFunc (S k) (snd (testFunc s))).
  rewrite IH. reflexivity.
Qed.

(** The loop ends: the bound used by [executeWithRetry] is large enough,
    whatever the action does. *)
Lemma loop_total fuel : forall attempt delay last s,
  (Z.to_nat (n - attempt + 1) < fuel)%nat ->
  is_Some (loop numberToString testFunc cfg fuel attempt delay last s).
Proof.
  induction fuel as [|fuel IH]; intros attempt delay last s Hfuel; [lia|].
  simpl. destruct (Z.leb_spec attempt n); [|eauto].
  destruct (testFunc s) as [[v|error] s1]; [eauto|].
  destruct (shouldRetry _ _ _ _); [|eauto].
  destruct (IH (attempt + 1) (delay * b)%float (Some error) s1) as [[[r evs] s2] Hr]; [lia|].
  rewrite Hr. eauto.
Qed.

Theorem executeWithRetry_total s : is_Some (executeWithRetry numberToString testFunc cfg s).
Proof. apply loop_total. lia. Qed.

(** When every attempt fails retryably, the run makes [n] calls with a
    sleep between each two, and the last iteration ends in [throw error]
    with the error of the last call. *)
Lemma exhaustion_run s :
  1 <= n ->
  (forall i, (i < Z.to_nat n)%nat ->
     fails_retryably testFunc cfg (after_calls testFunc i s) = true) ->
  exists error evs,
    fst (testFunc (after_calls testFunc (Z.to_nat n - 1) s)) = inr error /\
    executeWithRetry numberToString testFunc cfg s =
      Some (Rejected (Caught error), evs, after_calls testFunc (Z.to_nat n) s) /\
    timeline evs = retried_from b d (Z.to_nat n - 1) ++ [Call].
Proof.
  intros Hn Hfail.
  set (j := (Z.to_nat n - 1)%nat).
  destruct (loop_retries j 2%nat 1 d None s) as (evs0 & last' & Hc & Ht & Hl).
  { lia. }
  { intros i Hi. apply Hfail. lia. }
  pose proof (Hfail j ltac:(lia)) as Hj. unfold fails_retryably in Hj.
  destruct (testFunc (after_calls testFunc j s)) as [[v|error] s1] eqn:Hf;
    simpl in Hj; [discriminate|].
  exists error, (evs0 ++ [Call]).
  split; [reflexivity|]. split.
  - unfold executeWithRetry.
    replace (S (Z.to_nat n)) with (j + 2)%nat by lia.
    rewrite Hl, (loop_rethrow _ _ _ _ _ error s1); [| lia | assumption |].
    + simpl. replace (Z.to_nat n) with (S j) by lia.
      rewrite after_calls_S, Hf. reflexivity.
    + rewrite shouldRetry_unfold.
      destruct (Z.geb_spec (1 + Z.of_nat j) n); [reflexivity | lia].
  - rewrite timeline_app, Ht. reflexivity.
Qed.

(** C2, as amended. With [maxRetries = n], [1 <= n <= 2^53] (the range in
    which the loop counter of the code is exact), and an action that fails
    retryably on every attempt, the run ends, and its calls and sleeps are,
    in this order: attempt 1, a sleep, attempt 2, a sleep, ..., attempt [n].
    So the action is invoked exactly [n] times and there are exactly [n - 1]
    sleeps, one before each attempt but the first. The sleep before attempt
    [a + 1] lasts [initialDelay] multiplied [a - 1] times by
    [backoffMultiplier], one multiplication after the other, each product
    rounded as the code's multiplication rounds it. *)
Theorem executeWithRetry_backoff_schedule s :
  1 <= n <= 2 ^ 53 ->
  (forall i, (i < Z.to_nat n)%nat ->
     fails_retryably testFunc cfg (after_calls testFunc i s) = true) ->
  exists r evs s',
    executeWithRetry numberToString testFunc cfg s = Some (r, evs, s') /\
    timeline evs
      = flat_map (fun a => [Call; Sleep (backoff cfg (a - 1))]) (seq 1 (Z.to_nat n - 1))
        ++ [Call] /\
    calls evs = Z.to_nat n /\
    length (sleeps evs) = Z.to_nat (n - 1) /\
    sleeps evs = map (fun a => backoff cfg (a - 1)) (seq 1 (Z.to_nat n - 1)) /\
    backoff cfg 0 = d /\
    forall a, backoff cfg (S a) = (backoff cfg a * b)%float.
Proof.
  intros [Hn _] Hfail.
  destruct (exhaustion_run s Hn Hfail) as (error & evs & _ & Hrun & Ht).
  exists (Rejected (Caught error)), evs, (after_calls testFunc (Z.to_nat n) s).
  assert (Hsl : sleeps evs = map (fun a => backoff cfg (a - 1)) (seq 1 (Z.to_nat n - 1))).
  { rewrite <- sleeps_timeline, Ht, sleeps_app, sleeps_retried, app_nil_r.
    rewrite <- seq_shift, map_map. apply map_ext. intros i.
    replace (S i - 1)%nat with i by lia. reflexivity. }
  split; [exact Hrun|]. split.
  { rewrite Ht. f_equal. unfold retried_from.
    rewrite <- seq_shift, (flat_map_concat_map _ (map S _)), map_map, <- flat_map_concat_map.
    apply flat_map_ext. intros i. replace (S i - 1)%nat with i by lia. reflexivity. }
  split.
  { rewrite <- calls_timeline, Ht, calls_app, calls_retried. simpl. lia. }
  split.
  { rewrite Hsl, length_map, length_seq. lia. }
  split; [exact Hsl|]. split; [reflexivity|]. intros a. reflexivity.
Qed.

(** C3. When the attempts before attempt [k + 1 <= n] fail retryably and
    attempt [k + 1] raises an error whose message contains none of the
    patterns, the run ends at that attempt, after exactly [k + 1]
    invocations, by throwing that very error object. *)
Theorem executeWithRetry_non_retryable_passthrough s (k : nat) error :
  Z.of_nat k < n ->
  (forall i, (i < k)%nat ->
     fails_retryably testFunc cfg (after_calls testFunc i s) = true) ->
  fst (testFunc (after_calls testFunc k s)) = inr error ->
  matches_retryable error (retryableErrors cfg) = false ->
  exists evs,
    executeWithRetry numberToString testFunc cfg s =
      Some (Rejected (Caught error), evs, after_calls testFunc (S k) s) /\
    calls evs = S k.
Proof.
  intros Hk Hfail Herr Hno.
  destruct (loop_retries k (S (Z.to_nat n - k)) 1 d None s)
    as (evs0 & last' & Hc & _ & Hl); [lia | assumption |].
  destruct (testFunc (after_calls testFunc k s)) as [res s1] eqn:Hf.
  simpl in Herr. subst res.
  exists (evs0 ++ [Call]). split.
  - unfold executeWithRetry.
    replace (S (Z.to_nat n)) with (k + S (Z.to_nat n - k))%nat by lia.
    rewrite Hl, (loop_rethrow _ _ _ _ _ error s1); [| lia | assumption |].
    + rewrite after_calls_S, Hf. reflexivity.
    + rewrite shouldRetry_unfold, Hno. destruct (_ >=? _); reflexivity.
  - rewrite calls_app, Hc. simpl. lia.
Qed.

(** C10. With [maxRetries = 0] the body of the loop is not entered: the
    action is not invoked, nothing is logged or slept, and the call is
    rejected with the TypeError raised by reading [.message] of the
    undefined [lastError]. *)
Theorem executeWithRetry_zero_attempts s :
  n = 0 ->
  exists evs,
    executeWithRetry numberToString testFunc cfg s =
      Some (Rejected (TypeError "Cannot read properties of undefined (reading 'message')"),
            evs, s) /\
    evs = [] /\ calls evs = O.
Proof.
  intros Hz. exists []. split; [|split; reflexivity].
  unfold executeWithRetry. rewrite Hz. simpl. rewrite Hz. reflexivity.
Qed.
End RetryFacts.

Section RetryExamples.
Import TestRetryManager Examples.

(** C1. With [maxRetries = 3] and an action that raises a fresh error with
    message [timeout] on every attempt, the action is invoked three times
    and the call is rejected with the error object of the third
    invocation itself; the error built after the loop from the number of
    attempts and the last message is not what is thrown. *)
Theorem executeWithRetry_exhaustion_rethrows_last_error :
  let cfg := policy 3 500%float 2%float default_retryableErrors in
  let last := {| ref := 2; message := Some "timeout" |} in
  exists evs,
    executeWithRetry number_text (always_throws "timeout") cfg O =
      Some (Rejected (Caught last), evs, 3%nat) /\
    calls evs = 3%nat /\
    sleeps evs = [500%float; 1000%float] /\
    @Rejected unit (Caught last) <> Rejected (NewError (exhausted_text cfg last)).
Proof.
  intros cfg last. eexists. split; [vm_compute; reflexivity|].
  repeat split; discriminate.
Qed.

(** C2, the claim as written fails. With [initialDelay = 2^53 - 1],
    [backoffMultiplier = 3] and three attempts that all fail retryably, the
    sleep before attempt 3 lasts 27021597764222972 ms, the product as the
    code's multiplication rounds it, and not
    [initialDelay * backoffMultiplier ^ (2 - 1)] = 27021597764222973. With
    [initialDelay = 100], [backoffMultiplier = 1.1] and four attempts, the
    sleep before attempt 4 is [(100 * 1.1) * 1.1], which is not the number
    [100 * (1.1 * 1.1)]: the delays are products taken one after the
    other, not an initial delay times a power. *)
Lemma executeWithRetry_delay_is_rounded :
  let cfg := policy 3 9007199254740991%float 3%float ["timeout"] in
  let cfg' := policy 4 100%float (11 / 10)%float ["timeout"] in
  (exists r evs s',
     executeWithRetry number_text (always_throws "timeout") cfg O = Some (r, evs, s') /\
     integer_value (initialDelay cfg) = Some 9007199254740991 /\
     integer_value (backoffMultiplier cfg) = Some 3 /\
     (integer_value <$> sleeps evs) = [Some 9007199254740991; Some 27021597764222972] /\
     9007199254740991 * 3 ^ (2 - 1) = 27021597764222973 /\
     (integer_value <$> sleeps evs) !! 1%nat
       <> Some (Some (9007199254740991 * 3 ^ (2 - 1)))) /\
  (exists r evs s',
     executeWithRetry number_text (always_throws "timeout") cfg' O = Some (r, evs, s') /\
     sleeps evs = [100; 100 * (11 / 10); 100 * (11 / 10) * (11 / 10)]%float /\
     sleeps evs !! 2%nat <> Some (100 * ((11 / 10) * (11 / 10)))%float).
Proof.
  intros cfg cfg'. split.
  - eexists _, _, _. split; [vm_compute; reflexivity|].
    repeat split; try (vm_compute; reflexivity).
    vm_compute. intros H. discriminate H.
  - eexists _, _, _. split; [vm_compute; reflexivity|].
    split; [vm_compute; reflexivity|].
    vm_compute. intros H. discriminate H.
Qed.

Lemma executeWithRetry_backoff_schedule_witness :
  exists r evs s',
    executeWithRetry number_text (always_throws "timeout waiting for navigation")
      (policy 4 100%float 2%float ["timeout"]) O = Some (r, evs, s') /\
    timeline evs
      = [Call; Sleep 100%float; Call; Sleep 200%float; Call; Sleep 400%float; Call] /\
    calls evs = 4%nat /\
    length (sleeps evs) = 3%nat /\
    sleeps evs = [100%float; 200%float; 400%float] /\
    backoff (policy 4 100%float 2%float ["timeout"]) 0 = 100%float /\
    forall a, backoff (policy 4 100%float 2%float ["timeout"]) (S a)
              = (backoff (policy 4 100%float 2%float ["timeout"]) a * 2)%float.
Proof.
  apply (executeWithRetry_backoff_schedule number_text
           (always_throws "timeout waiting for navigation")
           (policy 4 100%float 2%float ["timeout"]) O).
  - simpl. lia.
  - intros i Hi. reflexivity.
Defined.

Lemma executeWithRetry_non_retryable_passthrough_witness :
  let error := {| ref := 0; message := Some "expected 1 to equal 2" |} in
  exists evs,
    executeWithRetry number_text (always_throws "expected 1 to equal 2")
      (policy 5 500%float 2%float default_retryableErrors) O =
      Some (Rejected (Caught error), evs, 1%nat) /\
    calls evs = 1%nat.
Proof.
  apply (executeWithRetry_non_retryable_passthrough number_text
           (always_throws "expected 1 to equal 2")
           (policy 5 500%float 2%float default_retryableErrors) O O).
  - simpl. lia.
  - intros i Hi. lia.
  - reflexivity.
  - reflexivity.
Defined.

Lemma executeWithRetry_zero_attempts_witness :
  exists evs,
    executeWithRetry number_text (always_throws "timeout")
      (policy 0 500%float 2%float ["timeout"]) O =
      Some (Rejected (TypeError "Cannot read properties of undefined (reading 'message')"),
            evs, O) /\
    evs = [] /\ calls evs = O.
Proof.
  apply (executeWithRetry_zero_attempts number_text
           (always_throws "timeout") (policy 0 500%float 2%float ["timeout"]) O).
  reflexivity.
Defined.
End RetryExamples.

(** * Properties of the selector manager *)

Section SelectorFacts.
Import SelectorManager.
Context {Page : Type}.
Variable waitFor : string -> Z -> Page -> bool * Page.

Implicit Types (m : t) (page : Page) (key elementName selector : string).

(** *** recordAttempt *)

Lemma recordAttempt_cache elementName selector ok m :
  selectorCache (recordAttempt elementName selector ok m) = selectorCache m.
Proof. reflexivity. Qed.

Lemma recordAttempt_logger elementName selector ok m :
  logger (recordAttempt elementName selector ok m) = logger m.
Proof. reflexivity. Qed.

Lemma recordAttempt_lookup elementName selector ok m :
  selectorAttempts (recordAttempt elementName selector ok m)
    !! (elementName +:+ "_" +:+ selector) =
  Some (if ok
        then {| success := S (successCount (elementName +:+ "_" +:+ selector) m);
                failure := failureCount (elementName +:+ "_" +:+ selector) m |}
        else {| success := successCount (elementName +:+ "_" +:+ selector) m;
                failure := S (failureCount (elementName +:+ "_" +:+ selector) m) |}).
Proof.
  unfold recordAttempt, successCount, failureCount. simpl.
  rewrite lookup_insert_eq.
  destruct (selectorAttempts m !! _) as [st|] eqn:E.
  - rewrite E. reflexivity.
  - rewrite lookup_insert_eq. reflexivity.
Qed.

Lemma recordAttempt_lookup_ne elementName selector ok m key :
  key <> elementName +:+ "_" +:+ selector ->
  selectorAttempts (recordAttempt elementName selector ok m) !! key =
  selectorAttempts m !! key.
Proof.
  intros Hne. unfold recordAttempt. simpl.
  rewrite lookup_insert_ne by congruence.
  destruct (selectorAttempts m !! (_ +:+ _)); [reflexivity|].
  rewrite lookup_insert_ne by congruence. reflexivity.
Qed.

Lemma recordAttempt_mono elementName selector ok m key :
  (successCount key m <= successCount key (recordAttempt elementName selector ok m))%nat /\
  (failureCount key m <= failureCount key (recordAttempt elementName selector ok m))%nat.
Proof.
  destruct (decide (key = elementName +:+ "_" +:+ selector)) as [->|Hne].
  - unfold successCount at 2, failureCount at 2.
    rewrite recordAttempt_lookup. destruct ok; simpl; lia.
  - unfold successCount, failureCount.
    rewrite recordAttempt_lookup_ne by assumption. lia.
Qed.

Lemma key_inj elementName selector1 selector2 :
  elementName +:+ "_" +:+ selector1 = elementName +:+ "_" +:+ selector2 ->
  selector1 = selector2.
Proof.
  intros H. apply (inj (String.append elementName)) in H.
  apply (inj (String.append "_")) in H. exact H.
Qed.

(** *** The loop of smartSelect *)

Lemma scan_mono elementName cacheKey timeout key selectors :
  forall m page r waited m1 page1,
  scan waitFor elementName cacheKey selectors timeout m page = (r, waited, m1, page1) ->
  (successCount key m <= successCount key m1)%nat /\
  (failureCount key m <= failureCount key m1)%nat.
Proof.
  induction selectors as [|selector rest IH]; intros m page r waited m1 page1 Hscan.
  - injection Hscan as <- <- <- <-. lia.
  - simpl in Hscan. destruct (waitFor selector timeout page) as [[|] page'].
    + injection Hscan as <- <- <- <-.
      apply (recordAttempt_mono elementName selector true
               (cache_set cacheKey selector
                  (write (Log (found_text elementName selector)) m)) key).
    + destruct (scan _ _ _ rest _ _ _) as [[[r' waited'] m2] page2] eqn:Hrest.
      injection Hscan as <- <- <- <-.
      apply IH in Hrest. destruct Hrest as [Hs2 Hf2].
      destruct (recordAttempt_mono elementName selector false m key) as [Hs1 Hf1].
      split; (eapply Nat.le_trans; [eassumption|]); [exact Hs2 | exact Hf2].
Qed.

Lemma scan_found_cached elementName cacheKey timeout found selectors :
  forall m page waited m1 page1,
  scan waitFor elementName cacheKey selectors timeout m page
    = (Some (locator found), waited, m1, page1) ->
  selectorCache m1 !! cacheKey = Some found.
Proof.
  induction selectors as [|selector rest IH]; intros m page waited m1 page1 Hscan.
  - discriminate.
  - simpl in Hscan. destruct (waitFor selector timeout page) as [[|] page'].
    + injection Hscan as <- <- <- <-. simpl. apply lookup_insert_eq.
    + destruct (scan _ _ _ rest _ _ _) as [[[r' waited'] m2] page2] eqn:Hrest.
      injection Hscan as -> <- <- <-. eapply IH, Hrest.
Qed.

Lemma scan_none elementName cacheKey timeout selectors :
  forall m page,
  none_resolves waitFor selectors timeout page = true ->
  exists m1 page1,
    scan waitFor elementName cacheKey selectors timeout m page
      = (None, selectors, m1, page1) /\
    selectorCache m1 = selectorCache m.
Proof.
  induction selectors as [|selector rest IH]; intros m page Hnone.
  - exists m, page. split; reflexivity.
  - simpl in Hnone |- *. destruct (waitFor selector timeout page) as [[|] page'];
      [discriminate|].
    destruct (IH (write (Debug (selector_failed_text elementName selector))
                    (recordAttempt elementName selector false m)) page' Hnone)
      as (m1 & page1 & -> & Hcache).
    exists m1, page1. split; [reflexivity | exact Hcache].
Qed.

Lemma scan_any_attempts elementName timeout selectors :
  forall m page r waited m1 page1,
  scan_any waitFor elementName selectors timeout m page = (r, waited, m1, page1) ->
  selectorAttempts m1 = selectorAttempts m.
Proof.
  induction selectors as [|selector rest IH]; intros m page r waited m1 page1 Hscan.
  - injection Hscan as <- <- <- <-. reflexivity.
  - simpl in Hscan. destruct (waitFor selector timeout page) as [[|] page'].
    + injection Hscan as <- <- <- <-. reflexivity.
    + destruct (scan_any _ _ rest _ _ _) as [[[r' waited'] m2] page2] eqn:Hrest.
      injection Hscan as <- <- <- <-. eapply IH, Hrest.
Qed.

(** A call that finds an entry in the cache. *)
Lemma smartSelect_hit page elementName primarySelector fallbackSelectors timeout m cached :
  selectorCache m !! (elementName +:+ "_" +:+ primarySelector) = Some cached ->
  smartSelect waitFor page elementName primarySelector fallbackSelectors timeout m =
  (Some (locator cached), [], m, page).
Proof. intros Hhit. unfold smartSelect. rewrite Hhit. reflexivity. Qed.

Lemma smartSelect_mono key page elementName primarySelector fallbackSelectors
    timeout m r waited m1 page1 :
  smartSelect waitFor page elementName primarySelector fallbackSelectors timeout m
    = (r, waited, m1, page1) ->
  (successCount key m <= successCount key m1)%nat /\
  (failureCount key m <= failureCount key m1)%nat.
Proof.
  unfold smartSelect. destruct (selectorCache m !! _).
  - intros [= <- <- <- <-]. lia.
  - destruct (scan _ _ _ _ _ _ _) as [[[r' waited'] m'] page'] eqn:Hscan.
    apply (scan_mono _ _ _ key) in Hscan.
    destruct r'; intros [= <- <- <- <-]; exact Hscan.
Qed.

Lemma smartSelectAny_attempts page elementName selectors timeout m r waited m1 page1 :
  smartSelectAny waitFor page elementName selectors timeout m = (r, waited, m1, page1) ->
  selectorAttempts m1 = selectorAttempts m.
Proof.
  unfold smartSelectAny.
  destruct (scan_any _ _ _ _ _ _) as [[[r' waited'] m'] page'] eqn:Hscan.
  apply scan_any_attempts in Hscan.
  destruct r'; intros [= <- <- <- <-]; exact Hscan.
Qed.

Lemma step_mono key o m page :
  (successCount key m <= successCount key (fst (step waitFor o (m, page))))%nat /\
  (failureCount key m <= failureCount key (fst (step waitFor o (m, page))))%nat.
Proof.
  destruct o as [elementName primarySelector fallbackSelectors timeout
                |elementName selectors timeout | |]; unfold step.
  - destruct (smartSelect _ _ _ _ _ _ _) as [[[r waited] m1] page1] eqn:Hcall.
    exact (smartSelect_mono key _ _ _ _ _ _ _ _ _ _ Hcall).
  - destruct (smartSelectAny _ _ _ _ _ _) as [[[r waited] m1] page1] eqn:Hcall.
    apply smartSelectAny_attempts in Hcall.
    unfold successCount, failureCount, fst. rewrite Hcall. lia.
  - unfold successCount, failureCount, fst, clearCache, selectorAttempts. lia.
  - unfold fst. lia.
Qed.

Lemma run_mono key ops : forall m page,
  (successCount key m <= successCount key (fst (run waitFor ops (m, page))))%nat /\
  (failureCount key m <= failureCount key (fst (run waitFor ops (m, page))))%nat.
Proof.
  induction ops as [|o ops IH]; intros m page; [simpl; lia|].
  destruct (step_mono key o m page) as [Hs Hf].
  change (run waitFor (o :: ops) (m, page))
    with (run waitFor ops (step waitFor o (m, page))).
  destruct (step waitFor o (m, page)) as [m1 page1].
  destruct (IH m1 page1) as [Hs' Hf']. simpl fst in Hs, Hf. lia.
Qed.

(** *** Claims about single calls *)

(** C4, as amended. When the cache has no entry for the key of the call
    and no selector of the call reaches the attached state, smartSelect
    waits on every selector in order, returns [null], leaves the cache as
    it was, and the last thing it does is send the logger an error record
    listing all the selectors. *)
Theorem smartSelect_all_fail_returns_null
    page elementName primarySelector fallbackSelectors timeout m :
  selectorCache m !! (elementName +:+ "_" +:+ primarySelector) = None ->
  none_resolves waitFor (primarySelector :: fallbackSelectors) timeout page = true ->
  exists m1 page1,
    smartSelect waitFor page elementName primarySelector fallbackSelectors timeout m
      = (None, primarySelector :: fallbackSelectors, m1, page1) /\
    last (logger m1)
      = Some (Error (all_failed_text elementName (primarySelector :: fallbackSelectors))) /\
    selectorCache m1 = selectorCache m.
Proof.
  intros Hmiss Hnone. unfold smartSelect. rewrite Hmiss.
  destruct (scan_none elementName (elementName +:+ "_" +:+ primarySelector) timeout
              (primarySelector :: fallbackSelectors) m page Hnone)
    as (m1 & page1 & -> & Hcache).
  eexists _, page1. split; [reflexivity|]. split; [|exact Hcache].
  simpl. apply last_snoc.
Qed.

(** C5, as amended. When the cache has an entry for the key of the call,
    smartSelect returns the locator of the cached selector at once: it
    waits on nothing, so the cached selector is not checked, and it leaves
    the instance (cache entry included) and the page as they were. The
    entry goes away only with clearCache. *)
Theorem smartSelect_cached_selector_not_revalidated
    page elementName primarySelector fallbackSelectors timeout m cached :
  selectorCache m !! (elementName +:+ "_" +:+ primarySelector) = Some cached ->
  smartSelect waitFor page elementName primarySelector fallbackSelectors timeout m
    = (Some (locator cached), [], m, page) /\
  selectorCache (clearCache m) !! (elementName +:+ "_" +:+ primarySelector) = None.
Proof.
  intros Hhit. split; [apply smartSelect_hit, Hhit | apply lookup_empty].
Qed.

(** C6, as amended. On an instance with no cache entry for the call and no
    statistics for A and B, with candidates [A; B; C] where the wait on A
    fails and the wait on B succeeds, smartSelect returns the locator of B,
    has waited on A and B only, leaves A with one failure and B with one
    success, touches no other statistics, and stores B in the cache under
    the key of the call, which is the element name followed by [_] and the
    primary selector A, and changes no other cache entry. *)
Theorem smartSelect_priority_order page page1 page2 elementName A B C timeout m :
  A <> B ->
  selectorCache m !! (elementName +:+ "_" +:+ A) = None ->
  selectorAttempts m !! (elementName +:+ "_" +:+ A) = None ->
  selectorAttempts m !! (elementName +:+ "_" +:+ B) = None ->
  waitFor A timeout page = (false, page1) ->
  waitFor B timeout page1 = (true, page2) ->
  exists m1,
    smartSelect waitFor page elementName A [B; C] timeout m
      = (Some (locator B), [A; B], m1, page2) /\
    selectorAttempts m1 !! (elementName +:+ "_" +:+ A)
      = Some {| success := 0; failure := 1 |} /\
    selectorAttempts m1 !! (elementName +:+ "_" +:+ B)
      = Some {| success := 1; failure := 0 |} /\
    (forall key, key <> elementName +:+ "_" +:+ A -> key <> elementName +:+ "_" +:+ B ->
       selectorAttempts m1 !! key = selectorAttempts m !! key) /\
    selectorCache m1 = <[elementName +:+ "_" +:+ A := B]> (selectorCache m).
Proof.
  intros Hne Hmiss HstatA HstatB HwaitA HwaitB.
  assert (Hkey : elementName +:+ "_" +:+ A <> elementName +:+ "_" +:+ B)
    by (intros Heq; apply Hne, (key_inj elementName), Heq).
  unfold smartSelect. rewrite Hmiss. cbn [scan]. rewrite HwaitA, HwaitB.
  eexists. split; [reflexivity|]. split; [|split; [|split]].
  - rewrite recordAttempt_lookup_ne by exact Hkey.
    cbn [selectorAttempts cache_set write].
    rewrite recordAttempt_lookup. unfold successCount, failureCount.
    rewrite HstatA. reflexivity.
  - rewrite recordAttempt_lookup. unfold successCount, failureCount.
    cbn [selectorAttempts cache_set write].
    rewrite recordAttempt_lookup_ne by congruence. rewrite HstatB. reflexivity.
  - intros key HkA HkB.
    rewrite recordAttempt_lookup_ne by exact HkB.
    cbn [selectorAttempts cache_set write].
    apply recordAttempt_lookup_ne, HkA.
  - reflexivity.
Qed.

(** C7, as amended. When a call that found no cache entry for its key has
    returned the locator of B, a second call with the same element name and
    the same primary selector, made on the instance as the first call left
    it, returns the locator of B at once, whatever page, fallbacks and
    timeout it is given: it waits on no selector (neither an earlier
    candidate nor B) and leaves the instance as it was. *)
Theorem smartSelect_second_call_same_key_uses_cache
    page elementName primarySelector fallbackSelectors timeout m B waited m1 page1 :
  selectorCache m !! (elementName +:+ "_" +:+ primarySelector) = None ->
  smartSelect waitFor page elementName primarySelector fallbackSelectors timeout m
    = (Some (locator B), waited, m1, page1) ->
  forall page2 fallbackSelectors2 timeout2,
    smartSelect waitFor page2 elementName primarySelector fallbackSelectors2 timeout2 m1
      = (Some (locator B), [], m1, page2).
Proof.
  intros Hmiss Hfirst page2 fallbackSelectors2 timeout2.
  apply smartSelect_hit.
  unfold smartSelect in Hfirst. rewrite Hmiss in Hfirst.
  destruct (scan _ _ _ _ _ _ _) as [[[r waited'] m'] page'] eqn:Hscan.
  destruct r as [found|]; [|discriminate].
  injection Hfirst as -> <- <- <-.
  eapply scan_found_cached, Hscan.
Qed.

(** *** Claims about the instance over time *)

(** C8. Along every sequence of smartSelect, smartSelectAny, clearCache
    and getStats calls, the success and failure counters of every key
    never go down: what they are after a prefix of the sequence is at most
    what they are after the whole sequence. *)
Theorem counters_never_decrease (ops1 ops2 : list op) m page key :
  (successCount key (fst (run waitFor ops1 (m, page)))
     <= successCount key (fst (run waitFor (ops1 ++ ops2) (m, page))))%nat /\
  (failureCount key (fst (run waitFor ops1 (m, page)))
     <= failureCount key (fst (run waitFor (ops1 ++ ops2) (m, page))))%nat.
Proof.
  unfold run. rewrite fold_left_app.
  destruct (fold_left _ ops1 (m, page)) as [m1 page1].
  apply (run_mono key ops2 m1 page1).
Qed.
End SelectorFacts.

(** C9. clearCache empties the selector cache and leaves the attempt
    statistics and the logger as they were. *)
Theorem clearCache_frame (m : SelectorManager.t) :
  SelectorManager.selectorCache (SelectorManager.clearCache m) = ∅ /\
  SelectorManager.selectorAttempts (SelectorManager.clearCache m)
    = SelectorManager.selectorAttempts m /\
  SelectorManager.logger (SelectorManager.clearCache m) = SelectorManager.logger m.
Proof. repeat split. Qed.

Section SelectorExamples.
Import SelectorManager Examples.

(** C4, the claim as written fails. On a page where nothing is attached,
    two calls with different selector lists both return [null]: the
    returned value is not an error value, and nothing read off it can list
    the selectors that were tried. *)
Lemma smartSelect_exhausted_result_is_bare_null :
  let r1 := fst (fst (fst (smartSelect dom_waitFor [] "submit" "#a" ["#b"] 5000 (new [])))) in
  let r2 := fst (fst (fst (smartSelect dom_waitFor [] "submit" "#c" [] 5000 (new [])))) in
  r1 = None /\ r2 = None /\
  ~ exists tried : option Locator -> list string,
      tried r1 = ["#a"; "#b"] /\ tried r2 = ["#c"].
Proof.
  intros r1 r2.
  assert (E1 : r1 = None) by (vm_compute; reflexivity).
  assert (E2 : r2 = None) by (vm_compute; reflexivity).
  split; [exact E1|]. split; [exact E2|].
  intros (tried & H1 & H2). rewrite E1 in H1. rewrite E2, H1 in H2. discriminate.
Qed.

Lemma smartSelect_all_fail_returns_null_witness :
  exists m1 page1,
    smartSelect dom_waitFor [] "submit" "#a" ["#b"] 5000 (new [])
      = (None, ["#a"; "#b"], m1, page1) /\
    last (logger m1)
      = Some (Error "✗ [submit] All selectors failed. Tried: #a | #b") /\
    selectorCache m1 = selectorCache (new []).
Proof.
  apply (smartSelect_all_fail_returns_null dom_waitFor [] "submit" "#a" ["#b"] 5000 (new []));
    reflexivity.
Defined.

(** C5, the claim as written fails. [B] was cached by a first call; then
    [B] leaves the page and [C] appears. The next call with the same
    candidates returns the locator of [B], which does not resolve, without
    waiting on anything and without touching the cache entry. *)
Lemma smartSelect_stale_entry_returned :
  selectorCache after_first_call !! "X_A" = Some "B" /\
  fst (dom_waitFor "B" 5000 ["C"]) = false /\
  fst (dom_waitFor "C" 5000 ["C"]) = true /\
  smartSelect dom_waitFor ["C"] "X" "A" ["B"; "C"] 5000 after_first_call
    = (Some (locator "B"), [], after_first_call, ["C"]) /\
  smartSelect dom_waitFor ["C"] "X" "A" ["B"; "C"] 5000 after_first_call
    <> (Some (locator "C"), ["B"; "C"],
        snd (fst (smartSelect dom_waitFor ["C"] "X" "A" ["B"; "C"] 5000
                    (clearCache after_first_call))),
        ["C"]).
Proof.
  assert (Hcall : smartSelect dom_waitFor ["C"] "X" "A" ["B"; "C"] 5000 after_first_call
                  = (Some (locator "B"), [], after_first_call, ["C"]))
    by (vm_compute; reflexivity).
  split; [vm_compute; reflexivity|].
  split; [reflexivity|]. split; [reflexivity|]. split; [exact Hcall|].
  rewrite Hcall. intros Heq. discriminate Heq.
Qed.

Lemma smartSelect_cached_selector_not_revalidated_witness :
  smartSelect dom_waitFor ["C"] "X" "A" ["B"; "C"] 5000 after_first_call
    = (Some (locator "B"), [], after_first_call, ["C"]) /\
  selectorCache (clearCache after_first_call) !! ("X" +:+ "_" +:+ "A") = None.
Proof.
  apply (smartSelect_cached_selector_not_revalidated
           dom_waitFor ["C"] "X" "A" ["B"; "C"] 5000 after_first_call "B").
  vm_compute. reflexivity.
Defined.

(** C6, the claim as written fails. After a first call for element [X]
    with candidates [A; B; C] on a page where only [B] is attached, the
    cache has no entry for the name [X]: its only entry is under the key
    [X_A]. A later call for [X] whose candidates are [C; B] does not find
    [B] in the cache: it waits on [C] and on [B] again. *)
Lemma smartSelect_cache_key_is_not_the_element_name :
  let later := smartSelect dom_waitFor ["B"] "X" "C" ["B"] 5000 after_first_call in
  fst (fst (fst (smartSelect dom_waitFor ["B"] "X" "A" ["B"; "C"] 5000 (new []))))
    = Some (locator "B") /\
  selectorCache after_first_call !! "X" = None /\
  selectorCache after_first_call = {[ "X_A" := "B" ]} /\
  fst (fst (fst later)) = Some (locator "B") /\
  snd (fst (fst later)) = ["C"; "B"] /\
  snd (fst (fst later)) <> [].
Proof.
  intros later.
  assert (Hw : snd (fst (fst later)) = ["C"; "B"]) by (vm_compute; reflexivity).
  split; [vm_compute; reflexivity|]. split; [vm_compute; reflexivity|].
  split; [|split; [vm_compute; reflexivity|split; [exact Hw|]]].
  - vm_compute. reflexivity.
  - rewrite Hw. discriminate.
Qed.

Lemma smartSelect_priority_order_witness :
  exists m1,
    smartSelect dom_waitFor ["B"] "X" "A" ["B"; "C"] 5000 (new [])
      = (Some (locator "B"), ["A"; "B"], m1, ["B"]) /\
    selectorAttempts m1 !! ("X" +:+ "_" +:+ "A") = Some {| success := 0; failure := 1 |} /\
    selectorAttempts m1 !! ("X" +:+ "_" +:+ "B") = Some {| success := 1; failure := 0 |} /\
    (forall key, key <> "X" +:+ "_" +:+ "A" -> key <> "X" +:+ "_" +:+ "B" ->
       selectorAttempts m1 !! key = selectorAttempts (new []) !! key) /\
    selectorCache m1 = <["X" +:+ "_" +:+ "A" := "B"]> (selectorCache (new [])).
Proof.
  apply (smartSelect_priority_order dom_waitFor ["B"] ["B"] ["B"] "X" "A" "B" "C" 5000 (new []));
    try reflexivity.
  intros Heq. discriminate Heq.
Defined.

(** C7, the claim as written fails. A first call for element [X] with
    candidates [A; B] caches [B]. A second call for the same element whose
    list starts with another selector finds no cache entry and waits on
    the earlier candidate [A]. *)
Lemma smartSelect_other_primary_rescans :
  let first := smartSelect dom_waitFor ["B"] "X" "A" ["B"] 5000 (new []) in
  let second := smartSelect dom_waitFor ["B"] "X" "A2" ["A"; "B"] 5000 (snd (fst first)) in
  fst (fst (fst first)) = Some (locator "B") /\
  selectorCache (snd (fst first)) !! "X_A" = Some "B" /\
  snd (fst (fst second)) = ["A2"; "A"; "B"] /\
  "A" ∈ snd (fst (fst second)).
Proof.
  intros first second.
  assert (Hw : snd (fst (fst second)) = ["A2"; "A"; "B"]) by (vm_compute; reflexivity).
  split; [vm_compute; reflexivity|]. split; [vm_compute; reflexivity|].
  split; [exact Hw|]. rewrite Hw. set_solver.
Qed.

Lemma smartSelect_second_call_same_key_uses_cache_witness :
  smartSelect dom_waitFor ["A"; "C"] "X" "A" ["C"] 3000 after_first_call
    = (Some (locator "B"), [], after_first_call, ["A"; "C"]).
Proof.
  apply (smartSelect_second_call_same_key_uses_cache
           dom_waitFor ["B"] "X" "A" ["B"; "C"] 5000 (new []) "B" ["A"; "B"]
           after_first_call ["B"]).
  - reflexivity.
  - vm_compute. reflexivity.
Defined.
End SelectorExamples.

(** * Further properties of the retry executor *)

Section RetryTrace.
Import TestRetryManager.
Context {T St : Type}.
Variable numberToString : float -> string.
Variable testFunc : St -> (T + JsError) * St.
Variable cfg : config.

Abbreviation n := (maxRetries cfg).
Abbreviation d := (initialDelay cfg).
Abbreviation b := (backoffMultiplier cfg).

(** What a finished loop has done, whatever the action does: it made
    [k + 1] calls, the first [k] of which failed retryably and were each
    followed by a sleep, and its outcome is the result of the last call. *)
Lemma loop_trace fuel : forall attempt delay last s r evs s',
  attempt <= n ->
  loop numberToString testFunc cfg fuel attempt delay last s = Some (r, evs, s') ->
  exists k : nat,
    calls evs = S k /\
    attempt + Z.of_nat k <= n /\
    timeline evs = retried_from b delay k ++ [Call] /\
    s' = after_calls testFunc (S k) s /\
    (forall i, (i < k)%nat ->
       fails_retryably testFunc cfg (after_calls testFunc i s) = true) /\
    match r with
    | Resolved v => fst (testFunc (after_calls testFunc k s)) = inl v
    | Rejected (Caught e) =>
        fst (testFunc (after_calls testFunc k s)) = inr e /\
        shouldRetry e (attempt + Z.of_nat k) n (retryableErrors cfg) = false
    | Rejected _ => False
    end.
Proof.
  induction fuel as [|fuel IH]; intros attempt delay last s r evs s' Hle Hrun;
    [discriminate|].
  simpl in Hrun. destruct (Z.leb_spec attempt n); [|lia].
  destruct (testFunc s) as [[v|error] s1] eqn:Hf.
  - injection Hrun as <- <- <-. exists O.
    split; [destruct (1 <? attempt); reflexivity|].
    split; [lia|]. split; [destruct (1 <? attempt); reflexivity|].
    split; [simpl; rewrite Hf; reflexivity|].
    split; [intros i Hi; lia|]. simpl. rewrite Hf. reflexivity.
  - destruct (shouldRetry error attempt n (retryableErrors cfg)) eqn:Hs.
    + assert (Hlt : attempt < n).
      { unfold shouldRetry in Hs. destruct (Z.geb_spec attempt n); [discriminate|lia]. }
      assert (Hm : matches_retryable error (retryableErrors cfg) = true).
      { unfold shouldRetry in Hs. destruct (attempt >=? n); [discriminate|exact Hs]. }
      destruct (loop numberToString testFunc cfg fuel (attempt + 1) (delay * b)%float
                  (Some error) s1)
        as [[[r' evs'] s2]|] eqn:Hrest; [|discriminate].
      injection Hrun as <- <- <-.
      assert (Hle' : attempt + 1 <= n) by lia.
      destruct (IH _ _ _ _ _ _ _ Hle' Hrest)
        as (k & Hc & Hk & Ht & Hst & Hfail & Hres).
      exists (S k). split; [simpl; rewrite Hc; reflexivity|].
      split; [lia|]. split.
      { rewrite retried_from_S. simpl. rewrite Ht. reflexivity. }
      split.
      { rewrite Hst. simpl. rewrite Hf. reflexivity. }
      split.
      { intros [|i] Hi.
        - unfold fails_retryably. simpl. rewrite Hf. exact Hm.
        - simpl. rewrite Hf. apply Hfail. lia. }
      replace (attempt + Z.of_nat (S k)) with (attempt + 1 + Z.of_nat k) by lia.
      simpl after_calls. rewrite Hf. exact Hres.
    + injection Hrun as <- <- <-. exists O.
      split; [reflexivity|]. split; [lia|]. split; [reflexivity|].
      split; [simpl; rewrite Hf; reflexivity|].
      split; [intros i Hi; lia|]. simpl. rewrite Hf, Z.add_0_r. split; [reflexivity|exact Hs].
Qed.

(** [k] attempts in a row from attempt 1, each followed by its sleep. *)
Lemma retried_backoff (k : nat) :
  retried_from b d k
  = flat_map (fun a => [Call; Sleep (backoff cfg (a - 1))]) (seq 1 k).
Proof.
  unfold retried_from.
  rewrite <- seq_shift, (flat_map_concat_map _ (map S _)), map_map, <- flat_map_concat_map.
  apply flat_map_ext. intros i. replace (S i - 1)%nat with i by lia. reflexivity.
Qed.

(** X1. With an integer [maxRetries >= 1] and an action that, when it
    fails, rejects with an error object whose message is a string or is
    missing, a finished call has invoked the action between 1 and
    [maxRetries] times and its outcome is the outcome of the last
    invocation: the value it resolved with, or the very error object it
    raised. For such inputs no other error is produced. *)
Theorem executeWithRetry_outcome_is_last_call s r evs s' :
  1 <= n ->
  executeWithRetry numberToString testFunc cfg s = Some (r, evs, s') ->
  (1 <= calls evs <= Z.to_nat n)%nat /\
  s' = after_calls testFunc (calls evs) s /\
  match r with
  | Resolved v => fst (testFunc (after_calls testFunc (calls evs - 1) s)) = inl v
  | Rejected (Caught e) => fst (testFunc (after_calls testFunc (calls evs - 1) s)) = inr e
  | Rejected _ => False
  end.
Proof.
  intros Hn Hrun.
  destruct (loop_trace _ _ _ _ _ _ _ _ Hn Hrun) as (k & Hc & Hk & _ & Hst & _ & Hres).
  rewrite Hc. replace (S k - 1)%nat with k by lia.
  split; [lia|]. split; [exact Hst|].
  destruct r as [v|[e|text|text]]; try exact Hres. apply Hres.
Qed.

(** X2. With an integer [maxRetries >= 1] and an action that, when it
    fails, rejects with an error object whose message is a string or is
    missing, the calls and sleeps of a finished call are, in this order:
    call 1, a sleep, call 2, a sleep, ..., the last call. There is exactly
    one sleep between two consecutive calls and none after the last; the
    sleep after call [a] lasts [initialDelay] multiplied [a - 1] times by
    [backoffMultiplier], one multiplication after the other, as the code's
    multiplication rounds it; and every call that was followed by a sleep
    had failed retryably. *)
Theorem executeWithRetry_sleeps_between_calls s r evs s' :
  1 <= n ->
  executeWithRetry numberToString testFunc cfg s = Some (r, evs, s') ->
  timeline evs
    = flat_map (fun a => [Call; Sleep (backoff cfg (a - 1))]) (seq 1 (calls evs - 1))
      ++ [Call] /\
  forall i, (i < calls evs - 1)%nat ->
    fails_retryably testFunc cfg (after_calls testFunc i s) = true.
Proof.
  intros Hn Hrun.
  destruct (loop_trace _ _ _ _ _ _ _ _ Hn Hrun) as (k & Hc & _ & Ht & _ & Hfail & _).
  rewrite Hc. replace (S k - 1)%nat with k by lia. split; [|exact Hfail].
  rewrite Ht, retried_backoff. reflexivity.
Qed.

(** X3. With [maxRetries >= 1], an action that succeeds at once is invoked
    exactly once and its value is returned; nothing is logged and there is
    no sleep. *)
Theorem executeWithRetry_first_try_success s v :
  1 <= n ->
  fst (testFunc s) = inl v ->
  executeWithRetry numberToString testFunc cfg s
    = Some (Resolved v, [Call], snd (testFunc s)).
Proof.
  intros Hn Hv. unfold executeWithRetry. simpl.
  destruct (Z.leb_spec 1 n); [|lia].
  destruct (testFunc s) as [res s1]. simpl in Hv. subst res. reflexivity.
Qed.

(** X4. When [maxRetries] is an integer of at most 2^53 (the range in
    which the loop counter of the code is exact and printed digit by
    digit), the first [k >= 1] attempts fail retryably and attempt
    [k + 1 <= maxRetries] succeeds with [v], the call returns [v]; its calls
    and sleeps are, in this order, call 1, a sleep, ..., call [k], a sleep,
    call [k + 1], the sleep after call [a] lasting [initialDelay]
    multiplied [a - 1] times by [backoffMultiplier], one multiplication
    after the other, as the code's multiplication rounds it; and the last
    thing it does is log that the action passed on attempt [k + 1]. *)
Theorem executeWithRetry_recovers s (k : nat) v :
  n <= 2 ^ 53 ->
  (1 <= k)%nat ->
  Z.of_nat k < n ->
  (forall i, (i < k)%nat ->
     fails_retryably testFunc cfg (after_calls testFunc i s) = true) ->
  fst (testFunc (after_calls testFunc k s)) = inl v ->
  exists evs,
    executeWithRetry numberToString testFunc cfg s =
      Some (Resolved v, evs, after_calls testFunc (S k) s) /\
    calls evs = S k /\
    timeline evs
      = flat_map (fun a => [Call; Sleep (backoff cfg (a - 1))]) (seq 1 k) ++ [Call] /\
    last evs = Some (Log (passed_text cfg (Z.of_nat k + 1))).
Proof.
  intros _ Hk1 Hk Hfail Hv.
  destruct (loop_retries numberToString testFunc cfg k (S (Z.to_nat n - k)) 1 d None s)
    as (evs0 & last' & Hc & Ht & Hl); [lia | assumption |].
  destruct (testFunc (after_calls testFunc k s)) as [res s1] eqn:Hf.
  simpl in Hv. subst res.
  exists (evs0 ++ [Call; Log (passed_text cfg (Z.of_nat k + 1))]).
  split; [|split; [|split]].
  - unfold executeWithRetry.
    replace (S (Z.to_nat n)) with (k + S (Z.to_nat n - k))%nat by lia.
    rewrite Hl. simpl loop.
    destruct (Z.leb_spec (1 + Z.of_nat k) n); [|lia]. rewrite Hf.
    destruct (Z.ltb_spec 1 (1 + Z.of_nat k)); [|lia].
    rewrite after_calls_S, Hf. simpl.
    replace (1 + Z.of_nat k) with (Z.of_nat k + 1) by lia. reflexivity.
  - rewrite calls_app, Hc. simpl. lia.
  - rewrite timeline_app, Ht, retried_backoff. reflexivity.
  - change [Call; Log (passed_text cfg (Z.of_nat k + 1))]
      with ([Call] ++ [Log (passed_text cfg (Z.of_nat k + 1))]).
    rewrite app_assoc. apply last_snoc.
Qed.

(** X5. With [maxRetries <= 0], negative values included, the action is
    never invoked and the call is rejected with the TypeError raised by
    reading [.message] of the undefined [lastError]. *)
Theorem executeWithRetry_nonpositive_attempts s :
  n <= 0 ->
  executeWithRetry numberToString testFunc cfg s =
    Some (Rejected (TypeError "Cannot read properties of undefined (reading 'message')"),
          [], s).
Proof.
  intros Hn. unfold executeWithRetry. simpl.
  destruct (Z.leb_spec 1 n); [lia|]. reflexivity.
Qed.
End RetryTrace.

(** * Error classification *)

Section Classification.
Import TestRetryManager.

Lemma prefix_spec (p s : string) :
  String.prefix p s = true <-> exists post, s = p +:+ post.
Proof.
  revert s. induction p as [|a p IH]; intros [|c s]; simpl.
  - split; [intros _; exists EmptyString; reflexivity | intros _; reflexivity].
  - split; [intros _; exists (String c s); reflexivity | intros _; reflexivity].
  - split; [discriminate | intros [post H]; discriminate].
  - destruct (Ascii.ascii_dec a c) as [->|Hne].
    + rewrite IH. split; intros [post H]; exists post.
      * rewrite H. reflexivity.
      * injection H as H. exact H.
    + split; [discriminate | intros [post H]]. injection H as H1 H2.
      exfalso. apply Hne. symmetry. exact H1.
Qed.

Lemma includes_spec (s pattern : string) :
  includes s pattern = true <-> exists pre post, s = pre +:+ pattern +:+ post.
Proof.
  induction s as [|c s IH].
  - change (includes EmptyString pattern)
      with (String.prefix pattern EmptyString || false).
    rewrite orb_true_iff. split.
    + intros [H|H]; [|discriminate]. apply prefix_spec in H as [post H].
      exists EmptyString, post. exact H.
    + intros ([|c pre] & post & H); [|discriminate]. left.
      apply prefix_spec. exists post. exact H.
  - change (includes (String c s) pattern)
      with (String.prefix pattern (String c s) || includes s pattern).
    rewrite orb_true_iff. split.
    + intros [H|H].
      * apply prefix_spec in H as [post H]. exists EmptyString, post. exact H.
      * apply IH in H as (pre & post & H). exists (String c pre), post.
        simpl. rewrite H. reflexivity.
    + intros ([|c' pre] & post & H).
      * left. apply prefix_spec. exists post. exact H.
      * right. apply IH. exists pre, post. injection H as _ H. exact H.
Qed.

(** X7. [shouldRetry] answers yes exactly when the attempt number is below
    [maxRetries] and the message of the error (the empty string when there
    is none) contains one of the patterns as a substring. *)
Theorem shouldRetry_spec error attempt maxRetries retryableErrors :
  shouldRetry error attempt maxRetries retryableErrors = true <->
  attempt < maxRetries /\
  exists pattern, In pattern retryableErrors /\
    exists pre post, default EmptyString (message error) = pre +:+ pattern +:+ post.
Proof.
  unfold shouldRetry, some. destruct (Z.geb_spec attempt maxRetries) as [Hge|Hlt].
  - split; [discriminate | intros [H _]; lia].
  - rewrite existsb_exists. split.
    + intros (pattern & Hin & Hinc). split; [exact Hlt|].
      exists pattern. split; [exact Hin | apply includes_spec, Hinc].
    + intros (_ & pattern & Hin & Hinc).
      exists pattern. split; [exact Hin | apply includes_spec, Hinc].
Qed.

(** X8. An error whose message is missing or empty is retried exactly when
    the attempt number is below [maxRetries] and the empty string is one of
    the patterns. *)
Theorem shouldRetry_without_message error attempt maxRetries retryableErrors :
  default EmptyString (message error) = EmptyString ->
  shouldRetry error attempt maxRetries retryableErrors = true <->
  attempt < maxRetries /\ In EmptyString retryableErrors.
Proof.
  intros Hmsg. unfold shouldRetry, some. cbv zeta. rewrite Hmsg.
  destruct (Z.geb_spec attempt maxRetries) as [Hge|Hlt].
  - split; [discriminate | intros [H _]; lia].
  - rewrite existsb_exists. split.
    + intros (pattern & Hin & Hinc).
      apply includes_spec in Hinc as (pre & post & Heq).
      destruct pre; [|discriminate]. destruct pattern; [|discriminate].
      split; [exact Hlt | exact Hin].
    + intros (_ & Hin). exists EmptyString. split; [exact Hin | reflexivity].
Qed.

Lemma shouldRetry_without_message_witness :
  shouldRetry {| ref := 0; message := None |} 1 3 ["timeout"; EmptyString] = true <->
  1 < 3 /\ In EmptyString ["timeout"; EmptyString].
Proof.
  apply (shouldRetry_without_message {| ref := 0; message := None |} 1 3
           ["timeout"; EmptyString]).
  reflexivity.
Defined.
End Classification.

(** * Retry statistics *)

Section RetryStatistics.
Import TestRetryManager.

Implicit Types (m : t) (r : attempt_report) (key : string).

Lemma stats_of_report r m key :
  stats_of key (report r m) =
  if bool_decide (of_test r = key)
  then {| totalAttempts := S (totalAttempts (stats_of key m));
          failureAttempts :=
            if negb (succeeded r) then S (failureAttempts (stats_of key m))
            else failureAttempts (stats_of key m);
          successOnRetry :=
            if negb (succeeded r) then successOnRetry (stats_of key m)
            else if 1 <? attempt_number r then S (successOnRetry (stats_of key m))
                 else successOnRetry (stats_of key m);
          errors :=
            match with_error r with
            | Some e => errors (stats_of key m)
                          ++ [{| logged_message := message e; timestamp := at_time r |}]
            | None => errors (stats_of key m)
            end |}
  else stats_of key m.
Proof.
  unfold stats_of, report, recordRetryAttempt. simpl.
  case_bool_decide as Hkey.
  - subst key. rewrite lookup_insert_eq. simpl.
    destruct (retryStats m !! of_test r); reflexivity.
  - rewrite lookup_insert_ne by exact Hkey. reflexivity.
Qed.

Lemma report_all_snoc rs r m : report_all (rs ++ [r]) m = report r (report_all rs m).
Proof. unfold report_all. rewrite fold_left_app. reflexivity. Qed.

(** X9. After a series of [recordRetryAttempt] calls on a new instance, the
    entry of a test holds: the number of calls made for it; the number of
    those that reported a failure; the number that reported a success on an
    attempt after the first; and, in call order, the message and time of
    every error passed for it. *)
Theorem retry_stats_count (rs : list attempt_report) lg key :
  let st := stats_of key (report_all rs (new lg)) in
  totalAttempts st = count_reports (fun r => bool_decide (of_test r = key)) rs /\
  failureAttempts st =
    count_reports (fun r => bool_decide (of_test r = key) && negb (succeeded r)) rs /\
  successOnRetry st =
    count_reports (fun r => bool_decide (of_test r = key) && succeeded r
                            && (1 <? attempt_number r)) rs /\
  errors st =
    omap (fun r => if bool_decide (of_test r = key)
                   then (fun e => {| logged_message := message e; timestamp := at_time r |})
                          <$> with_error r
                   else None) rs.
Proof.
  induction rs as [|r rs IH] using rev_ind; [repeat split|].
  destruct IH as (Ht & Hf & Hs & He). simpl.
  rewrite report_all_snoc, stats_of_report. unfold count_reports in *.
  rewrite !List.filter_app, !length_app, omap_app. simpl.
  case_bool_decide as Hkey; simpl.
  - rewrite Ht, Hf, Hs, He.
    destruct (succeeded r); simpl;
      destruct (1 <? attempt_number r); simpl;
      destruct (with_error r); simpl;
      rewrite ?app_nil_r; repeat split; lia.
  - rewrite app_nil_r. repeat split; try lia; assumption.
Qed.

Lemma step_sound o m : entries_sound m -> entries_sound (step o m).
Proof.
  intros Hm key st. destruct o as [r|]; simpl.
  - unfold report, recordRetryAttempt. simpl.
    destruct (decide (of_test r = key)) as [<-|Hne].
    + rewrite lookup_insert_eq. intros [= <-]. simpl.
      destruct (retryStats m !! of_test r) as [st0|] eqn:Hst0.
      * destruct (Hm _ _ Hst0) as (H1 & H2 & H3).
        destruct (succeeded r), (1 <? attempt_number r), (with_error r);
          simpl; rewrite ?length_app; simpl; lia.
      * destruct (succeeded r), (1 <? attempt_number r), (with_error r); simpl; lia.
    + rewrite lookup_insert_ne by exact Hne. apply Hm.
  - rewrite lookup_empty. discriminate.
Qed.

Lemma run_sound ops : forall m, entries_sound m -> entries_sound (run ops m).
Proof.
  induction ops as [|o ops IH]; intros m Hm; [exact Hm|].
  apply (IH (step o m)), step_sound, Hm.
Qed.

(** X10. On an instance used only through [recordRetryAttempt] and
    [clearStats], every entry of the statistics has [totalAttempts >= 1]
    (so the success rate never divides by zero), at most [totalAttempts]
    failures and successes on retry together, and at most [totalAttempts]
    logged errors. *)
Theorem retry_stats_entries_sound (ops : list op) lg key st :
  retryStats (run ops (new lg)) !! key = Some st ->
  (1 <= totalAttempts st)%nat /\
  (failureAttempts st + successOnRetry st <= totalAttempts st)%nat /\
  (length (errors st) <= totalAttempts st)%nat.
Proof.
  apply (run_sound ops (new lg)). intros key' st'. simpl.
  rewrite lookup_empty. discriminate.
Qed.
End RetryStatistics.

(** * Further properties of the selector manager *)

Section SelectorScan.
Import SelectorManager.
Context {Page : Type}.
Variable waitFor : string -> Z -> Page -> bool * Page.

Implicit Types (m : t) (page : Page) (key elementName selector : string).

Lemma recordAttempt_successCount elementName selector ok m key :
  successCount key (recordAttempt elementName selector ok m) =
  (successCount key m
   + if ok && bool_decide (elementName +:+ "_" +:+ selector = key) then 1 else 0)%nat.
Proof.
  case_bool_decide as Hkey.
  - subst key. unfold successCount at 1. rewrite recordAttempt_lookup.
    destruct ok; simpl; lia.
  - unfold successCount. rewrite recordAttempt_lookup_ne by congruence.
    rewrite andb_false_r. lia.
Qed.

Lemma recordAttempt_failureCount elementName selector ok m key :
  failureCount key (recordAttempt elementName selector ok m) =
  (failureCount key m
   + if negb ok && bool_decide (elementName +:+ "_" +:+ selector = key) then 1 else 0)%nat.
Proof.
  case_bool_decide as Hkey.
  - subst key. unfold failureCount at 1. rewrite recordAttempt_lookup.
    destruct ok; simpl; lia.
  - unfold failureCount. rewrite recordAttempt_lookup_ne by congruence.
    rewrite andb_false_r. lia.
Qed.

(** What the loop of smartSelect has done when it is over. *)
Lemma scan_inv elementName cacheKey timeout selectors :
  forall m page r waited m1 page1,
  scan waitFor elementName cacheKey selectors timeout m page = (r, waited, m1, page1) ->
  match r with
  | Some (locator found) =>
      exists pre post,
        selectors = pre ++ found :: post /\ waited = pre ++ [found] /\
        none_resolves waitFor pre timeout page = true /\
        waitFor found timeout (after_waits waitFor pre timeout page) = (true, page1) /\
        selectorCache m1 = <[cacheKey := found]> (selectorCache m)
  | None =>
      waited = selectors /\ none_resolves waitFor selectors timeout page = true /\
      page1 = after_waits waitFor selectors timeout page /\
      selectorCache m1 = selectorCache m
  end.
Proof.
  induction selectors as [|selector rest IH]; intros m page r waited m1 page1 Hscan.
  - injection Hscan as <- <- <- <-. repeat split.
  - simpl in Hscan. simpl none_resolves. simpl after_waits.
    destruct (waitFor selector timeout page) as [[|] page'] eqn:Hw.
    + injection Hscan as <- <- <- <-.
      exists [], rest. repeat split. simpl. exact Hw.
    + destruct (scan _ _ _ rest _ _ _) as [[[r' waited'] m2] page2] eqn:Hrest.
      injection Hscan as <- <- <- <-. apply IH in Hrest.
      destruct r' as [[found]|].
      * destruct Hrest as (pre & post & -> & -> & Hnone & Hfound & Hcache).
        exists (selector :: pre), post. simpl. rewrite Hw. repeat split; assumption.
      * destruct Hrest as (-> & Hnone & -> & Hcache). repeat split; assumption.
Qed.

(** Every wait of the loop is recorded once, as a success for the selector
    that was found and as a failure otherwise. *)
Lemma scan_counts elementName cacheKey timeout key selectors :
  forall m page r waited m1 page1,
  scan waitFor elementName cacheKey selectors timeout m page = (r, waited, m1, page1) ->
  (successCount key m1 + failureCount key m1
   = successCount key m + failureCount key m + waits_on elementName key waited)%nat /\
  successCount key m1 =
    (successCount key m
     + match r with
       | Some (locator found) =>
           if bool_decide (elementName +:+ "_" +:+ found = key) then 1 else 0
       | None => 0
       end)%nat.
Proof.
  induction selectors as [|selector rest IH]; intros m page r waited m1 page1 Hscan.
  - injection Hscan as <- <- <- <-. unfold waits_on. simpl. lia.
  - simpl in Hscan. destruct (waitFor selector timeout page) as [[|] page'].
    + injection Hscan as <- <- <- <-.
      rewrite recordAttempt_successCount, recordAttempt_failureCount.
      unfold waits_on. simpl.
      change (successCount key (cache_set cacheKey selector
                (write (Log (found_text elementName selector)) m)))
        with (successCount key m).
      change (failureCount key (cache_set cacheKey selector
                (write (Log (found_text elementName selector)) m)))
        with (failureCount key m).
      case_bool_decide; simpl; lia.
    + destruct (scan _ _ _ rest _ _ _) as [[[r' waited'] m2] page2] eqn:Hrest.
      injection Hscan as <- <- <- <-. apply IH in Hrest. destruct Hrest as [Htot Hsuc].
      change (successCount key (write (Debug (selector_failed_text elementName selector))
                (recordAttempt elementName selector false m)))
        with (successCount key (recordAttempt elementName selector false m)) in *.
      change (failureCount key (write (Debug (selector_failed_text elementName selector))
                (recordAttempt elementName selector false m)))
        with (failureCount key (recordAttempt elementName selector false m)) in *.
      rewrite recordAttempt_successCount in Htot, Hsuc.
      rewrite recordAttempt_failureCount in Htot.
      unfold waits_on in *. simpl in *.
      case_bool_decide; simpl in *; lia.
Qed.

Lemma scan_found elementName cacheKey timeout found post pre :
  forall m page page2,
  none_resolves waitFor pre timeout page = true ->
  waitFor found timeout (after_waits waitFor pre timeout page) = (true, page2) ->
  exists m1,
    scan waitFor elementName cacheKey (pre ++ found :: post) timeout m page
      = (Some (locator found), pre ++ [found], m1, page2) /\
    selectorCache m1 = <[cacheKey := found]> (selectorCache m).
Proof.
  induction pre as [|selector pre IH]; intros m page page2 Hnone Hfound; simpl in *.
  - rewrite Hfound. eexists. split; reflexivity.
  - destruct (waitFor selector timeout page) as [[|] page'] eqn:Hw; [discriminate|].
    simpl in Hfound.
    destruct (IH (write (Debug (selector_failed_text elementName selector))
                    (recordAttempt elementName selector false m)) page' page2 Hnone Hfound)
      as (m1 & -> & Hcache).
    exists m1. split; [reflexivity | exact Hcache].
Qed.

(** What the loop of smartSelectAny has done when it is over. *)
Lemma scan_any_inv elementName timeout selectors :
  forall m page r waited m1 page1,
  scan_any waitFor elementName selectors timeout m page = (r, waited, m1, page1) ->
  match r with
  | Some (locator found) =>
      exists pre post,
        selectors = pre ++ found :: post /\ waited = pre ++ [found] /\
        none_resolves waitFor pre timeout page = true /\
        waitFor found timeout (after_waits waitFor pre timeout page) = (true, page1) /\
        m1 = write (Log (found_any_text elementName found)) m
  | None =>
      waited = selectors /\ none_resolves waitFor selectors timeout page = true /\
      page1 = after_waits waitFor selectors timeout page /\ m1 = m
  end.
Proof.
  induction selectors as [|selector rest IH]; intros m page r waited m1 page1 Hscan.
  - injection Hscan as <- <- <- <-. repeat split.
  - simpl in Hscan. simpl none_resolves. simpl after_waits.
    destruct (waitFor selector timeout page) as [[|] page'] eqn:Hw.
    + injection Hscan as <- <- <- <-.
      exists [], rest. repeat split. simpl. exact Hw.
    + destruct (scan_any _ _ rest _ _ _) as [[[r' waited'] m2] page2] eqn:Hrest.
      injection Hscan as <- <- <- <-. apply IH in Hrest.
      destruct r' as [[found]|].
      * destruct Hrest as (pre & post & -> & -> & Hnone & Hfound & Hm).
        exists (selector :: pre), post. simpl. rewrite Hw. repeat split; assumption.
      * destruct Hrest as (-> & Hnone & -> & Hm). repeat split; assumption.
Qed.

(** The two loops find the same selector after the same waits. *)
Lemma scan_agrees elementName cacheKey timeout selectors :
  forall m m' page,
  fst (fst (scan waitFor elementName cacheKey selectors timeout m page))
    = fst (fst (scan_any waitFor elementName selectors timeout m' page)) /\
  snd (scan waitFor elementName cacheKey selectors timeout m page)
    = snd (scan_any waitFor elementName selectors timeout m' page).
Proof.
  induction selectors as [|selector rest IH]; intros m m' page; [split; reflexivity|].
  simpl. destruct (waitFor selector timeout page) as [[|] page']; [split; reflexivity|].
  specialize (IH (write (Debug (selector_failed_text elementName selector))
                    (recordAttempt elementName selector false m)) m' page').
  destruct (scan _ _ _ rest _ _ _) as [[[r1 w1] m1] p1].
  destruct (scan_any _ _ rest _ _ _) as [[[r2 w2] m2] p2].
  simpl in *. destruct IH as [[= -> ->] ->]. split; reflexivity.
Qed.

(** *** Single calls *)

(** X11. Every wait of a smartSelect call is recorded exactly once in the
    statistics: for each key, successes plus failures grow by the number of
    waited selectors recorded under that key, and the only success recorded
    is for the selector the call found by waiting. A cache hit waits on
    nothing and records nothing. *)
Theorem smartSelect_records_every_wait
    page elementName primarySelector fallbackSelectors timeout m r waited m1 page1 key :
  smartSelect waitFor page elementName primarySelector fallbackSelectors timeout m
    = (r, waited, m1, page1) ->
  (successCount key m1 + failureCount key m1
   = successCount key m + failureCount key m + waits_on elementName key waited)%nat /\
  successCount key m1 =
    (successCount key m
     + match r with
       | Some _ => waits_on elementName key (option_list (last waited))
       | None => 0
       end)%nat.
Proof.
  unfold smartSelect. destruct (selectorCache m !! _).
  - intros [= <- <- <- <-]. unfold waits_on. simpl. lia.
  - destruct (scan _ _ _ _ _ _ _) as [[[r' waited'] m'] page'] eqn:Hscan.
    pose proof (scan_counts _ _ _ key _ _ _ _ _ _ _ Hscan) as [Htot Hsuc].
    pose proof (scan_inv _ _ _ _ _ _ _ _ _ _ Hscan) as Hinv.
    destruct r' as [[found]|]; intros [= <- <- <- <-].
    + destruct Hinv as (pre & post & _ & -> & _).
      split; [exact Htot|]. rewrite last_snoc. unfold waits_on. simpl.
      rewrite Hsuc. case_bool_decide; reflexivity.
    + split; [exact Htot | exact Hsuc].
Qed.

(** X12. When the cache has no entry for the key of the call, the waits on
    the candidates before [found] all fail and the wait on [found] succeeds,
    smartSelect returns the locator of [found], has waited on exactly the
    candidates up to [found], and stores [found] in the cache under the key
    of the call; later candidates are not tried. *)
Theorem smartSelect_first_match
    page page2 elementName primarySelector fallbackSelectors timeout m pre found post :
  selectorCache m !! (elementName +:+ "_" +:+ primarySelector) = None ->
  primarySelector :: fallbackSelectors = pre ++ found :: post ->
  none_resolves waitFor pre timeout page = true ->
  waitFor found timeout (after_waits waitFor pre timeout page) = (true, page2) ->
  exists m1,
    smartSelect waitFor page elementName primarySelector fallbackSelectors timeout m
      = (Some (locator found), pre ++ [found], m1, page2) /\
    selectorCache m1
      = <[elementName +:+ "_" +:+ primarySelector := found]> (selectorCache m).
Proof.
  intros Hmiss Hsplit Hnone Hfound. unfold smartSelect. rewrite Hmiss, Hsplit.
  destruct (scan_found elementName (elementName +:+ "_" +:+ primarySelector) timeout
              found post pre m page page2 Hnone Hfound) as (m1 & -> & Hcache).
  exists m1. split; [reflexivity | exact Hcache].
Qed.

(** X13. A locator returned by smartSelect is either the cached selector of
    the key, returned without any wait and without any change, or the first
    candidate whose wait succeeded, all candidates before it having been
    waited on in vain. *)
Theorem smartSelect_returns_cached_or_first_match
    page elementName primarySelector fallbackSelectors timeout m found waited m1 page1 :
  smartSelect waitFor page elementName primarySelector fallbackSelectors timeout m
    = (Some (locator found), waited, m1, page1) ->
  (selectorCache m !! (elementName +:+ "_" +:+ primarySelector) = Some found /\
   waited = [] /\ m1 = m /\ page1 = page) \/
  (selectorCache m !! (elementName +:+ "_" +:+ primarySelector) = None /\
   exists pre post,
     primarySelector :: fallbackSelectors = pre ++ found :: post /\
     waited = pre ++ [found] /\
     none_resolves waitFor pre timeout page = true /\
     waitFor found timeout (after_waits waitFor pre timeout page) = (true, page1)).
Proof.
  unfold smartSelect.
  destruct (selectorCache m !! _) as [cached|] eqn:Hcache.
  - intros [= -> <- <- <-]. left. repeat split.
  - destruct (scan _ _ _ _ _ _ _) as [[[r' waited'] m'] page'] eqn:Hscan.
    apply scan_inv in Hscan.
    destruct r' as [[found']|]; intros [= <- <- <- <-].
    destruct Hscan as (pre & post & Hsplit & Hw & Hnone & Hfound & _).
    right. split; [reflexivity|]. exists pre, post. repeat split; assumption.
Qed.

(** X14. smartSelectAny never touches the cache or the statistics. It
    returns the locator of the first selector whose wait succeeds, after
    waiting in vain on the selectors before it, and logs it; when no wait
    succeeds (in particular for an empty list) it has waited on every
    selector, returns [null] and logs an error listing them. *)
Theorem smartSelectAny_spec page elementName selectors timeout m r waited m1 page1 :
  smartSelectAny waitFor page elementName selectors timeout m = (r, waited, m1, page1) ->
  selectorCache m1 = selectorCache m /\
  selectorAttempts m1 = selectorAttempts m /\
  match r with
  | Some (locator found) =>
      exists pre post,
        selectors = pre ++ found :: post /\ waited = pre ++ [found] /\
        none_resolves waitFor pre timeout page = true /\
        waitFor found timeout (after_waits waitFor pre timeout page) = (true, page1) /\
        logger m1 = logger m ++ [Log (found_any_text elementName found)]
  | None =>
      waited = selectors /\ none_resolves waitFor selectors timeout page = true /\
      logger m1 = logger m ++ [Error (none_matched_text elementName selectors)]
  end.
Proof.
  unfold smartSelectAny.
  destruct (scan_any _ _ _ _ _ _) as [[[r' waited'] m'] page'] eqn:Hscan.
  apply scan_any_inv in Hscan.
  destruct r' as [[found]|]; intros [= <- <- <- <-].
  - destruct Hscan as (pre & post & Hsplit & Hw & Hnone & Hfound & ->).
    split; [reflexivity|]. split; [reflexivity|].
    exists pre, post. repeat split; assumption.
  - destruct Hscan as (Hw & Hnone & _ & ->). repeat split; assumption.
Qed.

(** X15. When the cache has no entry for the key of the call, smartSelect
    and smartSelectAny given the same candidates return the same value,
    wait on the same selectors and leave the same page. *)
Theorem smartSelect_agrees_with_smartSelectAny
    page elementName primarySelector fallbackSelectors timeout m m' :
  selectorCache m !! (elementName +:+ "_" +:+ primarySelector) = None ->
  let a := smartSelect waitFor page elementName primarySelector fallbackSelectors timeout m in
  let b := smartSelectAny waitFor page elementName (primarySelector :: fallbackSelectors)
             timeout m' in
  fst (fst (fst a)) = fst (fst (fst b)) /\
  snd (fst (fst a)) = snd (fst (fst b)) /\
  snd a = snd b.
Proof.
  intros Hmiss. unfold smartSelect, smartSelectAny. rewrite Hmiss.
  destruct (scan_agrees elementName (elementName +:+ "_" +:+ primarySelector) timeout
              (primarySelector :: fallbackSelectors) m m' page) as [H1 H2].
  destruct (scan _ _ _ _ _ _ _) as [[[r1 w1] m1] p1].
  destruct (scan_any _ _ _ _ _ _) as [[[r2 w2] m2] p2].
  simpl in H1, H2. injection H1 as -> ->. subst p2.
  destruct r2; repeat split.
Qed.
End SelectorScan.

Section SelectorLifetime.
Import SelectorManager.
Context {Page : Type}.
Variable waitFor : string -> Z -> Page -> bool * Page.

Implicit Types (m : t) (page : Page) (key elementName selector : string).

Lemma smartSelect_keeps_entries
    page elementName primarySelector fallbackSelectors timeout m r waited m1 page1
    key selector :
  smartSelect waitFor page elementName primarySelector fallbackSelectors timeout m
    = (r, waited, m1, page1) ->
  selectorCache m !! key = Some selector ->
  selectorCache m1 !! key = Some selector.
Proof.
  unfold smartSelect.
  destruct (selectorCache m !! (elementName +:+ "_" +:+ primarySelector)) eqn:Hcache.
  - intros [= <- <- <- <-] Hkey. exact Hkey.
  - destruct (scan _ _ _ _ _ _ _) as [[[r' waited'] m'] page'] eqn:Hscan.
    apply scan_inv in Hscan.
    destruct r' as [[found]|]; intros [= <- <- <- <-] Hkey.
    + destruct Hscan as (pre & post & _ & _ & _ & _ & ->).
      rewrite lookup_insert_ne; [exact Hkey | congruence].
    + destruct Hscan as (_ & _ & _ & Hsame). simpl. rewrite Hsame. exact Hkey.
Qed.

Lemma smartSelectAny_cache page elementName selectors timeout m r waited m1 page1 :
  smartSelectAny waitFor page elementName selectors timeout m = (r, waited, m1, page1) ->
  selectorCache m1 = selectorCache m.
Proof.
  unfold smartSelectAny.
  destruct (scan_any _ _ _ _ _ _) as [[[r' waited'] m'] page'] eqn:Hscan.
  apply scan_any_inv in Hscan.
  destruct r' as [[found]|]; intros [= <- <- <- <-].
  - destruct Hscan as (pre & post & _ & _ & _ & _ & ->). reflexivity.
  - destruct Hscan as (_ & _ & _ & ->). reflexivity.
Qed.

Lemma step_keeps_entries o m page key selector :
  o <> ClearCache ->
  selectorCache m !! key = Some selector ->
  selectorCache (fst (step waitFor o (m, page))) !! key = Some selector.
Proof.
  intros Hop Hkey.
  destruct o as [elementName primarySelector fallbackSelectors timeout
                |elementName selectors timeout | |]; unfold step.
  - destruct (smartSelect _ _ _ _ _ _ _) as [[[r waited] m1] page1] eqn:Hcall.
    exact (smartSelect_keeps_entries _ _ _ _ _ _ _ _ _ _ _ _ Hcall Hkey).
  - destruct (smartSelectAny _ _ _ _ _ _) as [[[r waited] m1] page1] eqn:Hcall.
    apply smartSelectAny_cache in Hcall. simpl. rewrite Hcall. exact Hkey.
  - congruence.
  - exact Hkey.
Qed.

(** X16. A cache entry, once written, keeps its selector through every
    later smartSelect, smartSelectAny and getStats call, whatever the page
    does: only clearCache removes or changes it. *)
Theorem cache_entry_survives_until_cleared (ops : list op) m page key selector :
  Forall (fun o => o <> ClearCache) ops ->
  selectorCache m !! key = Some selector ->
  selectorCache (fst (run waitFor ops (m, page))) !! key = Some selector.
Proof.
  intros Hops. revert m page.
  induction Hops as [|o ops Ho _ IH]; intros m page Hkey; [exact Hkey|].
  change (run waitFor (o :: ops) (m, page))
    with (run waitFor ops (step waitFor o (m, page))).
  pose proof (step_keeps_entries o m page key selector Ho Hkey) as Hstep.
  destruct (step waitFor o (m, page)) as [m1 page1]. apply IH, Hstep.
Qed.

Lemma successCount_mono_backed m m1 :
  (forall key, (successCount key m <= successCount key m1)%nat) ->
  (forall key selector, selectorCache m1 !! key = Some selector ->
     selectorCache m !! key = Some selector) ->
  cache_backed m -> cache_backed m1.
Proof.
  intros Hmono Hsub Hm cacheKey selector Hentry.
  destruct (Hm cacheKey selector (Hsub _ _ Hentry))
    as (elementName & primarySelector & Hkey & Hcount).
  exists elementName, primarySelector. split; [exact Hkey|].
  eapply Nat.le_trans; [exact Hcount | apply Hmono].
Qed.

Lemma step_backed o m page :
  cache_backed m -> cache_backed (fst (step waitFor o (m, page))).
Proof.
  intros Hm.
  destruct o as [elementName primarySelector fallbackSelectors timeout
                |elementName selectors timeout | |]; unfold step.
  - destruct (smartSelect _ _ _ _ _ _ _) as [[[r waited] m1] page1] eqn:Hcall.
    simpl fst. intros cacheKey selector Hentry.
    assert (Hmono : forall key, (successCount key m <= successCount key m1)%nat)
      by (intros key; apply (smartSelect_mono waitFor key _ _ _ _ _ _ _ _ _ _ Hcall)).
    unfold smartSelect in Hcall.
    destruct (selectorCache m !! (elementName +:+ "_" +:+ primarySelector)) eqn:Hcache.
    + injection Hcall as <- <- <- <-. apply Hm, Hentry.
    + destruct (scan _ _ _ _ _ _ _) as [[[r' waited'] m'] page'] eqn:Hscan.
      pose proof (scan_counts waitFor _ _ _ (elementName +:+ "_" +:+ selector)
                    _ _ _ _ _ _ _ Hscan) as [_ Hsuc].
      apply scan_inv in Hscan.
      destruct r' as [[found]|]; injection Hcall as <- <- <- <-.
      * destruct Hscan as (pre & post & _ & -> & _ & _ & Hnew).
        rewrite Hnew in Hentry.
        destruct (decide (cacheKey = elementName +:+ "_" +:+ primarySelector)) as [->|Hne].
        -- rewrite lookup_insert_eq in Hentry. injection Hentry as ->.
           exists elementName, primarySelector. split; [reflexivity|].
           rewrite Hsuc, bool_decide_eq_true_2 by reflexivity. lia.
        -- rewrite lookup_insert_ne in Hentry by congruence.
           destruct (Hm _ _ Hentry) as (name' & primary' & Hkey & Hcount).
           exists name', primary'. split; [exact Hkey|].
           eapply Nat.le_trans; [exact Hcount | apply Hmono].
      * destruct Hscan as (_ & _ & _ & Hsame). simpl in Hentry. rewrite Hsame in Hentry.
        destruct (Hm _ _ Hentry) as (name' & primary' & Hkey & Hcount).
        exists name', primary'. split; [exact Hkey|].
        eapply Nat.le_trans; [exact Hcount | apply Hmono].
  - destruct (smartSelectAny _ _ _ _ _ _) as [[[r waited] m1] page1] eqn:Hcall.
    pose proof (smartSelectAny_cache _ _ _ _ _ _ _ _ _ Hcall) as Hcache.
    pose proof (smartSelectAny_attempts waitFor _ _ _ _ _ _ _ _ _ Hcall) as Hattempts.
    simpl fst.
    apply (successCount_mono_backed m m1); [| |exact Hm].
    + intros key. unfold successCount. rewrite Hattempts. lia.
    + intros key selector. rewrite Hcache. tauto.
  - intros cacheKey selector Hentry. simpl in Hentry.
    rewrite lookup_empty in Hentry. discriminate.
  - exact Hm.
Qed.

(** X17. On an instance used only through smartSelect, smartSelectAny,
    clearCache and getStats, every cache entry sits under a key of the form
    [elementName_primarySelector], and its selector has at least one success
    recorded for that element name. *)
Theorem cache_entries_have_recorded_success (ops : list op) lg page cacheKey selector :
  selectorCache (fst (run waitFor ops (new lg, page))) !! cacheKey = Some selector ->
  exists elementName primarySelector,
    cacheKey = elementName +:+ "_" +:+ primarySelector /\
    (1 <= successCount (elementName +:+ "_" +:+ selector)
            (fst (run waitFor ops (new lg, page))))%nat.
Proof.
  assert (Hall : forall ops m page, cache_backed m ->
                   cache_backed (fst (run waitFor ops (m, page)))).
  { clear. intros ops. induction ops as [|o ops IH]; intros m page Hm; [exact Hm|].
    change (run waitFor (o :: ops) (m, page))
      with (run waitFor ops (step waitFor o (m, page))).
    pose proof (step_backed o m page Hm) as Hstep.
    destruct (step waitFor o (m, page)) as [m1 page1]. apply IH, Hstep. }
  apply (Hall ops (new lg) page).
  intros key sel Hentry. simpl in Hentry. rewrite lookup_empty in Hentry. discriminate.
Qed.

(** X18. After clearCache, the next smartSelect call does not use any
    earlier result: it starts by waiting on its primary selector. *)
Theorem smartSelect_after_clearCache_rescans
    page elementName primarySelector fallbackSelectors timeout m :
  head (snd (fst (fst (smartSelect waitFor page elementName primarySelector
                         fallbackSelectors timeout (clearCache m)))))
  = Some primarySelector.
Proof.
  unfold smartSelect. simpl selectorCache. rewrite lookup_empty.
  cbn [scan]. destruct (waitFor primarySelector timeout page) as [[|] page1];
    [reflexivity|].
  destruct (scan _ _ _ _ _ _ _) as [[[r waited] m1] page2].
  destruct r; reflexivity.
Qed.
End SelectorLifetime.

(** * Generated fallback selectors *)

Section FallbackSelectors.
Import SelectorManager.

Lemma str_app_nil (b : string) : EmptyString +:+ b = b.
Proof. reflexivity. Qed.

Lemma str_app_cons (x : ascii) (a b : string) : String x a +:+ b = String x (a +:+ b).
Proof. reflexivity. Qed.

Lemma str_app_assoc (a b c : string) : (a +:+ b) +:+ c = a +:+ b +:+ c.
Proof.
  induction a as [|x a IH]; [reflexivity|].
  rewrite !str_app_cons, IH. reflexivity.
Qed.

Lemma str_app_length (a b : string) :
  String.length (a +:+ b) = (String.length a + String.length b)%nat.
Proof.
  induction a as [|x a IH]; [reflexivity|].
  rewrite str_app_cons. simpl. rewrite IH. reflexivity.
Qed.

Lemma strip_prefix_spec (p s rest : string) :
  strip_prefix p s = Some rest <-> s = p +:+ rest.
Proof.
  revert s. induction p as [|a p IH]; intros s.
  - rewrite str_app_nil. simpl. split; [intros [= ->]; reflexivity | intros ->; reflexivity].
  - rewrite str_app_cons. simpl. destruct s as [|c s]; [split; discriminate|].
    destruct (Ascii.eqb_spec a c) as [->|Hne].
    + rewrite IH. split; [intros ->; reflexivity | intros [= ->]; reflexivity].
    + split; [discriminate | intros [= H _]; symmetry in H; contradiction].
Qed.

Lemma until_quote_cons_none (c : ascii) (s : string) :
  until_quote (String c s) = None <-> c <> "034"%char /\ until_quote s = None.
Proof.
  simpl. destruct (Ascii.eqb_spec c "034"%char) as [->|Hne].
  - split; [discriminate | intros [H _]; contradiction].
  - destruct (until_quote s); simpl.
    + split; [discriminate | intros [_ H]; discriminate].
    + split; [intros _; split; [exact Hne | reflexivity] | reflexivity].
Qed.

(** A string has no double quote exactly when [until_quote] finds none. *)
Lemma until_quote_none (s : string) :
  until_quote s = None <-> includes s dquote = false.
Proof.
  induction s as [|c s IH]; [split; reflexivity|].
  change (includes (String c s) dquote)
    with (String.prefix dquote (String c s) || includes s dquote).
  rewrite until_quote_cons_none, IH.
  destruct (String.prefix dquote (String c s)) eqn:Hp; simpl.
  - apply prefix_spec in Hp as [post Hp]. injection Hp as -> _.
    split; [intros [H _]; contradiction | discriminate].
  - assert (Hne : c <> "034"%char).
    { intros ->. assert (Ht : String.prefix dquote (String "034"%char s) = true)
        by (apply prefix_spec; exists s; reflexivity).
      rewrite Ht in Hp. discriminate. }
    split; [intros [_ H]; exact H | intros H; split; [exact Hne | exact H]].
Qed.

Lemma until_quote_app (v rest : string) :
  until_quote v = None -> until_quote (v +:+ dquote +:+ rest) = Some v.
Proof.
  induction v as [|c v IH]; intros Hv; [reflexivity|].
  apply until_quote_cons_none in Hv as [Hc Hv].
  rewrite str_app_cons. simpl.
  destruct (Ascii.eqb_spec c "034"%char); [contradiction|].
  rewrite (IH Hv). reflexivity.
Qed.

Lemma until_quote_some (s v : string) :
  until_quote s = Some v ->
  until_quote v = None /\ exists rest, s = v +:+ dquote +:+ rest.
Proof.
  revert v. induction s as [|c s IH]; intros v; simpl; [discriminate|].
  destruct (Ascii.eqb_spec c "034"%char) as [->|Hne].
  - intros [= <-]. split; [reflexivity | exists s; reflexivity].
  - destruct (until_quote s) as [v'|]; [|discriminate]. intros [= <-].
    destruct (IH v' eq_refl) as (Hv' & rest & ->).
    split; [|exists rest; reflexivity].
    apply until_quote_cons_none. split; assumption.
Qed.

Lemma until_quote_app_none (a b : string) :
  until_quote a = None -> until_quote b = None -> until_quote (a +:+ b) = None.
Proof.
  induction a as [|c a IH]; intros Ha Hb; [exact Hb|].
  apply until_quote_cons_none in Ha as [Hc Ha].
  rewrite str_app_cons. apply until_quote_cons_none. split; [exact Hc | apply IH; assumption].
Qed.

Lemma capture_at_some (s v : string) :
  capture_at s = Some v ->
  truthy v = true /\ until_quote v = None /\ exists rest, s = v +:+ dquote +:+ rest.
Proof.
  unfold capture_at. destruct (until_quote s) as [[|c w]|] eqn:Hs; try discriminate.
  intros [= <-]. split; [reflexivity|]. apply until_quote_some, Hs.
Qed.

Lemma match_quoted_unfold (lit s : string) :
  match_quoted lit s =
  match match strip_prefix lit s with
        | Some rest => capture_at rest
        | None => None
        end with
  | Some value => Some value
  | None =>
    match s with
    | EmptyString => None
    | String _ rest => match_quoted lit rest
    end
  end.
Proof. destruct s; reflexivity. Qed.

(** A match of the pattern puts, somewhere in [s], the literal, then the
    group, which is non-empty and has no quote, then a quote. *)
Lemma match_quoted_some (lit s v : string) :
  match_quoted lit s = Some v ->
  truthy v = true /\ includes v dquote = false /\
  exists pre post, s = pre +:+ lit +:+ v +:+ dquote +:+ post.
Proof.
  induction s as [|c s IH]; rewrite match_quoted_unfold;
    destruct (strip_prefix lit _) as [rest|] eqn:Hp;
    try destruct (capture_at rest) as [w|] eqn:Hc.
  all: try (intros [= ->];
            apply capture_at_some in Hc as (Ht & Hq & post & ->);
            apply strip_prefix_spec in Hp;
            split; [exact Ht|]; split; [apply until_quote_none, Hq|];
            exists EmptyString, post; exact Hp).
  all: try discriminate.
  all: intros Hrest; destruct (IH Hrest) as (Ht & Hq & pre & post & ->);
       split; [exact Ht|]; split; [exact Hq|];
       exists (String c pre), post; reflexivity.
Qed.

(** The leftmost match is found: nothing can match inside a prefix that has
    no quote, because the literal ends with one. *)
Lemma match_quoted_found (body pre v post : string) :
  until_quote body = None -> until_quote pre = None ->
  until_quote v = None -> truthy v = true ->
  match_quoted (body +:+ dquote) (pre +:+ (body +:+ dquote) +:+ v +:+ dquote +:+ post)
    = Some v.
Proof.
  intros Hbody Hpre Hv Ht.
  assert (Hc : capture_at (v +:+ dquote +:+ post) = Some v).
  { unfold capture_at. rewrite until_quote_app by exact Hv.
    destruct v; [discriminate | reflexivity]. }
  induction pre as [|c pre IH].
  - rewrite str_app_nil, match_quoted_unfold.
    rewrite (proj2 (strip_prefix_spec _ _ _) eq_refl), Hc. reflexivity.
  - apply until_quote_cons_none in Hpre as [Hne Hpre'].
    rewrite str_app_cons, match_quoted_unfold.
    destruct (strip_prefix (body +:+ dquote) _) as [rest|] eqn:Hp.
    + exfalso. apply strip_prefix_spec in Hp.
      assert (H1 : until_quote (String c (pre +:+ (body +:+ dquote) +:+ v +:+ dquote +:+ post))
                   = Some body).
      { rewrite Hp, str_app_assoc. apply until_quote_app, Hbody. }
      assert (H2 : until_quote (String c (pre +:+ (body +:+ dquote) +:+ v +:+ dquote +:+ post))
                   = Some (String c pre +:+ body)).
      { rewrite <- str_app_cons.
        rewrite <- (str_app_assoc (String c pre) (body +:+ dquote)).
        rewrite <- (str_app_assoc (String c pre) body dquote).
        rewrite (str_app_assoc (String c pre +:+ body) dquote).
        apply until_quote_app, until_quote_app_none; [|exact Hbody].
        apply until_quote_cons_none. split; assumption. }
      rewrite H1 in H2. injection H2 as H2.
      apply (f_equal String.length) in H2.
      rewrite str_app_length in H2. simpl in H2. lia.
    + apply IH, Hpre'.
Qed.

Lemma includes_literal_quote (base lit : string) :
  includes base dquote = false -> includes base (lit +:+ dquote) = false.
Proof.
  intros Hq. destruct (includes base (lit +:+ dquote)) eqn:Hi; [|reflexivity].
  apply includes_spec in Hi as (pre & post & ->).
  assert (Ht : includes (pre +:+ (lit +:+ dquote) +:+ post) dquote = true).
  { apply includes_spec. exists (pre +:+ lit), post.
    rewrite !str_app_assoc. reflexivity. }
  rewrite Ht in Hq. discriminate.
Qed.

Lemma match_quoted_includes (lit base v : string) :
  match_quoted (lit +:+ dquote) base = Some v ->
  truthy v = true /\ includes v dquote = false /\
  includes base (lit +:+ dquote +:+ v +:+ dquote) = true.
Proof.
  intros Hm. apply match_quoted_some in Hm as (Ht & Hq & pre & post & ->).
  split; [exact Ht|]. split; [exact Hq|].
  apply includes_spec. exists pre, post. rewrite !str_app_assoc. reflexivity.
Qed.

(** X19. A base selector without any double quote has no fallbacks. *)
Theorem generateFallbackSelectors_without_quote (baseSelector : string) :
  includes baseSelector dquote = false ->
  generateFallbackSelectors baseSelector = [].
Proof.
  intros Hq. unfold generateFallbackSelectors.
  rewrite !includes_literal_quote by exact Hq. reflexivity.
Qed.

(** X20. Every generated fallback comes from an attribute that occurs in
    the base selector with a non-empty, quote-free value [v]:
    [[data-testid="v"]] from [data-test="v"], [#v] from [id="v"], and
    [input[name="v"]] or [textarea[name="v"]] from [name="v"]. *)
Theorem generateFallbackSelectors_sound (baseSelector fallback : string) :
  In fallback (generateFallbackSelectors baseSelector) ->
  exists v,
    truthy v = true /\ includes v dquote = false /\
    ((fallback = "[data-testid=" +:+ dquote +:+ v +:+ dquote +:+ "]" /\
      includes baseSelector ("data-test=" +:+ dquote +:+ v +:+ dquote) = true) \/
     (fallback = "#" +:+ v /\
      includes baseSelector ("id=" +:+ dquote +:+ v +:+ dquote) = true) \/
     ((fallback = "input[name=" +:+ dquote +:+ v +:+ dquote +:+ "]" \/
       fallback = "textarea[name=" +:+ dquote +:+ v +:+ dquote +:+ "]") /\
      includes baseSelector ("name=" +:+ dquote +:+ v +:+ dquote) = true)).
Proof.
  unfold generateFallbackSelectors.
  destruct (includes baseSelector ("data-test=" +:+ dquote));
    destruct (includes baseSelector ("id=" +:+ dquote));
    destruct (includes baseSelector ("name=" +:+ dquote));
    try destruct (match_quoted ("data-test=" +:+ dquote) baseSelector) as [v1|] eqn:H1;
    try destruct (match_quoted ("id=" +:+ dquote) baseSelector) as [v2|] eqn:H2;
    try destruct (match_quoted ("name=" +:+ dquote) baseSelector) as [v3|] eqn:H3;
    try (apply match_quoted_includes in H1 as (Ht1 & Hq1 & Hi1); rewrite Ht1);
    try (apply match_quoted_includes in H2 as (Ht2 & Hq2 & Hi2); rewrite Ht2);
    try (apply match_quoted_includes in H3 as (Ht3 & Hq3 & Hi3); rewrite Ht3);
    simpl; intros Hin;
    repeat match goal with
           | H : _ \/ _ |- _ => destruct H as [H|H]
           | H : False |- _ => contradiction
           end;
    subst fallback.
  all: first
    [ exists v1; split; [assumption|]; split; [assumption|]; left; split;
      [reflexivity | assumption]
    | exists v2; split; [assumption|]; split; [assumption|]; right; left; split;
      [reflexivity | assumption]
    | exists v3; split; [assumption|]; split; [assumption|]; right; right; split;
      [(left; reflexivity) || (right; reflexivity) | assumption] ].
Qed.

Lemma attribute_found (body pre v post : string) :
  until_quote body = None ->
  includes pre dquote = false -> includes v dquote = false -> truthy v = true ->
  let base := pre +:+ body +:+ dquote +:+ v +:+ dquote +:+ post in
  includes base (body +:+ dquote) = true /\
  match_quoted (body +:+ dquote) base = Some v.
Proof.
  intros Hbody Hpre Hv Ht base. subst base. split.
  - apply includes_spec. exists pre, (v +:+ dquote +:+ post).
    rewrite !str_app_assoc. reflexivity.
  - rewrite <- (str_app_assoc body dquote).
    apply match_quoted_found; [exact Hbody | | | exact Ht]; apply until_quote_none; assumption.
Qed.

(** X21. When the base selector is [pre] followed by [data-test="v"] (or
    [id="v"], or [name="v"]) where [pre] has no double quote and [v] is
    non-empty and has none, the fallbacks contain [[data-testid="v"]]
    (respectively [#v], respectively both [input[name="v"]] and
    [textarea[name="v"]]). *)
Theorem generateFallbackSelectors_complete (pre v post : string) :
  includes pre dquote = false -> includes v dquote = false -> truthy v = true ->
  In ("[data-testid=" +:+ dquote +:+ v +:+ dquote +:+ "]")
     (generateFallbackSelectors
        (pre +:+ "data-test=" +:+ dquote +:+ v +:+ dquote +:+ post)) /\
  In ("#" +:+ v)
     (generateFallbackSelectors (pre +:+ "id=" +:+ dquote +:+ v +:+ dquote +:+ post)) /\
  In ("input[name=" +:+ dquote +:+ v +:+ dquote +:+ "]")
     (generateFallbackSelectors (pre +:+ "name=" +:+ dquote +:+ v +:+ dquote +:+ post)) /\
  In ("textarea[name=" +:+ dquote +:+ v +:+ dquote +:+ "]")
     (generateFallbackSelectors (pre +:+ "name=" +:+ dquote +:+ v +:+ dquote +:+ post)).
Proof.
  intros Hpre Hv Ht.
  destruct (attribute_found "data-test=" pre v post eq_refl Hpre Hv Ht) as [Hi1 Hm1].
  destruct (attribute_found "id=" pre v post eq_refl Hpre Hv Ht) as [Hi2 Hm2].
  destruct (attribute_found "name=" pre v post eq_refl Hpre Hv Ht) as [Hi3 Hm3].
  repeat split; unfold generateFallbackSelectors.
  - rewrite Hi1, Hm1, Ht.
    repeat match goal with
           | |- context [if ?c then _ else _] => destruct c
           | |- context [match ?o with Some _ => _ | None => _ end] => destruct o
           end;
      rewrite ?in_app_iff; simpl; tauto.
  - rewrite Hi2, Hm2, Ht.
    repeat match goal with
           | |- context [if ?c then _ else _] => destruct c
           | |- context [match ?o with Some _ => _ | None => _ end] => destruct o
           end;
      rewrite ?in_app_iff; simpl; tauto.
  - rewrite Hi3, Hm3, Ht.
    repeat match goal with
           | |- context [if ?c then _ else _] => destruct c
           | |- context [match ?o with Some _ => _ | None => _ end] => destruct o
           end;
      rewrite ?in_app_iff; simpl; tauto.
  - rewrite Hi3, Hm3, Ht.
    repeat match goal with
           | |- context [if ?c then _ else _] => destruct c
           | |- context [match ?o with Some _ => _ | None => _ end] => destruct o
           end;
      rewrite ?in_app_iff; simpl; tauto.
Qed.
End FallbackSelectors.

(** * The course page: selector fallback composed with retries *)

Section CoursePageFacts.
Import TestRetryManager CoursePage.
Context {Page : Type}.
Variable numberToString : float -> string.
Variable waitFor : string -> Z -> Page -> bool * Page.
Variable click : string -> Page -> (unit + JsError) * Page.
Variable waitForSelector : string -> Z -> Page -> bool * Page.

Abbreviation candidates := (addToCartButton :: addToCartFallbacks).
Abbreviation enroll := (enrollFirstCourse numberToString waitFor click waitForSelector).

Lemma await_executeWithRetry_eq {T St : Type} (testFunc : St -> (T + JsError) * St) cfg s :
  executeWithRetry numberToString testFunc cfg s
  = Some (await_executeWithRetry numberToString testFunc cfg s).
Proof.
  unfold await_executeWithRetry.
  destruct (executeWithRetry_total numberToString testFunc cfg s) as [res ->]. reflexivity.
Qed.

Lemma scan_any_none elementName timeout selectors :
  forall (m : SelectorManager.t) page,
  SelectorManager.none_resolves waitFor selectors timeout page = true ->
  SelectorManager.scan_any waitFor elementName selectors timeout m page
    = (None, selectors, m, SelectorManager.after_waits waitFor selectors timeout page).
Proof.
  induction selectors as [|selector rest IH]; intros m page Hnone; [reflexivity|].
  simpl in Hnone |- *.
  destruct (waitFor selector timeout page) as [[|] page']; [discriminate|].
  rewrite (IH m page' Hnone). reflexivity.
Qed.

Lemma clicks_app (out1 out2 : list entry) :
  clicks (out1 ++ out2) = (clicks out1 + clicks out2)%nat.
Proof.
  induction out1 as [|[[| | |]| |] out1 IH]; simpl; rewrite ?IH; reflexivity.
Qed.

Lemma clicks_retry (evs : list event) : clicks (map Retry evs) = calls evs.
Proof.
  induction evs as [|[| | |] evs IH]; simpl; rewrite ?IH; reflexivity.
Qed.

(** The retry around the click makes at most two clicks. *)
Lemma click_retry_calls selector page r evs page' :
  await_executeWithRetry numberToString (fun p => click selector p) click_config page
    = (r, evs, page') ->
  (calls evs <= 2)%nat.
Proof.
  intros Hrun.
  pose proof (await_executeWithRetry_eq (fun p => click selector p) click_config page) as Heq.
  rewrite Hrun in Heq.
  assert (Hn : 1 <= maxRetries click_config) by (simpl; lia).
  destruct (loop_trace _ _ _ _ _ _ _ _ _ _ _ Hn Heq) as (k & Hc & Hk & _).
  simpl in Hk. lia.
Qed.

Lemma enrollFirstCourse_clicks (w : world) :
  (clicks (output (snd (enroll w))) <= clicks (output w) + 2)%nat.
Proof.
  unfold enrollFirstCourse, enroll_body.
  destruct (SelectorManager.smartSelectAny _ _ _ _ _ _) as [[[[[selector]|] waited] m1] page1].
  - destruct (await_executeWithRetry _ _ _ _) as [[[v|t] evs] page2] eqn:Hrun;
      apply click_retry_calls in Hrun.
    + destruct (waitForSelector cartBadge 3000 page2) as [seen page3]. simpl.
      rewrite !clicks_app, clicks_retry. simpl. lia.
    + simpl. rewrite !clicks_app, clicks_retry. simpl. lia.
  - simpl. rewrite clicks_app. simpl. lia.
Qed.

Lemma after_calls_clicks (k : nat) : forall w : world,
  (clicks (output (after_calls enroll k w)) <= clicks (output w) + 2 * k)%nat.
Proof.
  induction k as [|k IH]; intros w; simpl; [lia|].
  specialize (IH (snd (enroll w))).
  pose proof (enrollFirstCourse_clicks w). lia.
Qed.

(** X22. When none of the add-to-cart selectors is attached,
    [enrollFirstCourseWithRetry] does not retry, whatever [maxRetries >= 1]
    is: [enrollFirstCourse] runs once, nothing is clicked, there is no
    sleep, and the call is rejected with the error
    "Add to cart button not found", which none of the retryable patterns
    matches. *)
Theorem enrollFirstCourseWithRetry_button_missing (maxRetries : Z) (w : world) :
  1 <= maxRetries ->
  SelectorManager.none_resolves waitFor candidates 5000 (page w) = true ->
  exists w',
    enrollFirstCourseWithRetry numberToString waitFor click waitForSelector maxRetries w =
      (Rejected (Caught {| ref := errors_made w;
                           message := Some "Add to cart button not found" |}),
       [Call], w') /\
    clicks (output w') = clicks (output w) /\
    last (output w') = Some (ConsoleError "✗ Failed to add to cart: Add to cart button not found").
Proof.
  intros Hn Hnone.
  assert (Hcall : exists w', enroll w =
            (inr {| ref := errors_made w; message := Some "Add to cart button not found" |}, w')
            /\ clicks (output w') = clicks (output w)
            /\ last (output w') = Some (ConsoleError
                 "✗ Failed to add to cart: Add to cart button not found")).
  { unfold enrollFirstCourse, enroll_body, SelectorManager.smartSelectAny.
    rewrite (scan_any_none _ _ _ _ _ Hnone). eexists. split; [reflexivity|].
    simpl. rewrite clicks_app. simpl. split; [lia | apply last_snoc]. }
  destruct Hcall as (w' & Hcall & Hclicks & Hlast).
  exists w'. split; [|split; assumption].
  unfold enrollFirstCourseWithRetry.
  pose proof (await_executeWithRetry_eq enroll (enroll_config maxRetries) w) as Heq.
  unfold executeWithRetry in Heq.
  rewrite (loop_rethrow numberToString enroll (enroll_config maxRetries) _ _ _ _ _
             {| ref := errors_made w; message := Some "Add to cart button not found" |} w')
    in Heq; [congruence | simpl; lia | exact Hcall |].
  unfold shouldRetry. destruct (1 >=? _); reflexivity.
Qed.

(** X23. When a selector of the add-to-cart button is found and the first
    click on it succeeds, [enrollFirstCourse] succeeds after exactly one
    click and ends by logging the success, whether or not the cart badge
    becomes visible. *)
Theorem enrollFirstCourse_ignores_cart_badge (w : world) selector waited m1 page1 :
  SelectorManager.smartSelectAny waitFor (page w) "Add to Cart Button" candidates 5000
    (selectorManager w) = (Some (SelectorManager.locator selector), waited, m1, page1) ->
  fst (click selector page1) = inl tt ->
  exists w',
    enroll w = (inl tt, w') /\
    clicks (output w') = S (clicks (output w)) /\
    last (output w') = Some (ConsoleLog "✓ Item added to cart successfully").
Proof.
  intros Hfound Hclick. unfold enrollFirstCourse, enroll_body. rewrite Hfound.
  unfold await_executeWithRetry.
  destruct (click selector page1) as [res page2] eqn:Hc. simpl in Hclick. subst res.
  unfold await_executeWithRetry, executeWithRetry. cbn [loop Z.to_nat maxRetries click_config
    Pos.to_nat Pos.iter_op Nat.add]. cbn [Z.leb Z.compare Pos.compare Pos.compare_cont].
  rewrite Hc. cbn [Z.ltb Z.compare Pos.compare Pos.compare_cont].
  destruct (waitForSelector cartBadge 3000 _) as [seen page3].
  eexists. split; [reflexivity|]. simpl. split.
  - rewrite clicks_app. simpl. lia.
  - rewrite last_app. reflexivity.
Qed.

(** X24. With [maxRetries >= 1], whatever the page does,
    [enrollFirstCourseWithRetry] runs [enrollFirstCourse] at most
    [maxRetries] times and clicks at most [2 * maxRetries] times in all. *)
Theorem enrollFirstCourseWithRetry_click_bound (maxRetries : Z) (w : world) r evs w' :
  1 <= maxRetries ->
  enrollFirstCourseWithRetry numberToString waitFor click waitForSelector maxRetries w
    = (r, evs, w') ->
  (calls evs <= Z.to_nat maxRetries)%nat /\
  (clicks (output w') <= clicks (output w) + 2 * Z.to_nat maxRetries)%nat.
Proof.
  intros Hn Hrun. unfold enrollFirstCourseWithRetry in Hrun.
  pose proof (await_executeWithRetry_eq enroll (enroll_config maxRetries) w) as Heq.
  rewrite Hrun in Heq.
  assert (Hn' : 1 <= TestRetryManager.maxRetries (enroll_config maxRetries)) by (simpl; lia).
  destruct (loop_trace _ _ _ _ _ _ _ _ _ _ _ Hn' Heq)
    as (k & Hc & Hk & _ & -> & _).
  simpl in Hk. split; [lia|].
  pose proof (after_calls_clicks (S k) w). lia.
Qed.
End CoursePageFacts.

(** * Instances of the further properties *)

Section RetryInstances.
Import TestRetryManager Examples.

Lemma executeWithRetry_outcome_is_last_call_witness :
  (1 <= calls (snd (fst recovering_run)) <= Z.to_nat 4)%nat /\
  snd recovering_run
    = after_calls (fails_then_returns 2 "timeout" 7) (calls (snd (fst recovering_run))) O /\
  fst (fails_then_returns 2 "timeout" 7
         (after_calls (fails_then_returns 2 "timeout" 7)
            (calls (snd (fst recovering_run)) - 1) O)) = inl 7%nat.
Proof.
  apply (executeWithRetry_outcome_is_last_call number_text (fails_then_returns 2 "timeout" 7)
           (policy 4 100%float 3%float ["timeout"]) O (Resolved 7%nat)
           (snd (fst recovering_run)) (snd recovering_run)).
  - simpl. lia.
  - vm_compute. reflexivity.
Defined.

Lemma executeWithRetry_sleeps_between_calls_witness :
  timeline (snd (fst recovering_run))
    = [Call; Sleep 100%float; Call; Sleep 300%float; Call] /\
  forall i, (i < calls (snd (fst recovering_run)) - 1)%nat ->
    fails_retryably (fails_then_returns 2 "timeout" 7)
      (policy 4 100%float 3%float ["timeout"])
      (after_calls (fails_then_returns 2 "timeout" 7) i O) = true.
Proof.
  apply (executeWithRetry_sleeps_between_calls number_text
           (fails_then_returns 2 "timeout" 7)
           (policy 4 100%float 3%float ["timeout"]) O (Resolved 7%nat)
           (snd (fst recovering_run)) (snd recovering_run)).
  - simpl. lia.
  - vm_compute. reflexivity.
Defined.

Lemma executeWithRetry_first_try_success_witness :
  executeWithRetry number_text (fails_then_returns 0 "timeout" 7)
    (policy 3 100%float 3%float ["timeout"]) O
    = Some (Resolved 7%nat, [Call], 1%nat).
Proof.
  apply (executeWithRetry_first_try_success number_text (fails_then_returns 0 "timeout" 7)
           (policy 3 100%float 3%float ["timeout"]) O 7%nat).
  - simpl. lia.
  - reflexivity.
Defined.

Lemma executeWithRetry_recovers_witness :
  exists evs,
    executeWithRetry number_text (fails_then_returns 2 "timeout" 7)
      (policy 4 100%float 3%float ["timeout"]) O
      = Some (Resolved 7%nat, evs, 3%nat) /\
    calls evs = 3%nat /\
    timeline evs = [Call; Sleep 100%float; Call; Sleep 300%float; Call] /\
    last evs = Some (Log "✓ [login] Passed on attempt 3/4").
Proof.
  apply (executeWithRetry_recovers number_text (fails_then_returns 2 "timeout" 7)
           (policy 4 100%float 3%float ["timeout"]) O 2 7%nat).
  - simpl. lia.
  - lia.
  - simpl. lia.
  - intros [|[|i]] Hi; [reflexivity | reflexivity | lia].
  - reflexivity.
Defined.

Lemma executeWithRetry_nonpositive_attempts_witness :
  executeWithRetry number_text (always_throws "timeout")
    (policy (-2) 500%float 2%float ["timeout"]) O =
    Some (Rejected (TypeError "Cannot read properties of undefined (reading 'message')"),
          [], O).
Proof.
  apply (executeWithRetry_nonpositive_attempts number_text (always_throws "timeout")
           (policy (-2) 500%float 2%float ["timeout"]) O).
  simpl. lia.
Defined.

Lemma retry_stats_entries_sound_witness :
  (1 <= 2)%nat /\ (1 + 1 <= 2)%nat /\ (1 <= 2)%nat.
Proof.
  apply (retry_stats_entries_sound
           (ClearStats :: map RecordRetryAttempt sample_reports) [] "login"
           {| totalAttempts := 2; failureAttempts := 1; successOnRetry := 1;
              errors := [{| logged_message := Some "timeout"; timestamp := "t1" |}] |}).
  vm_compute. reflexivity.
Defined.
End RetryInstances.

Section SelectorInstances.
Import SelectorManager Examples.

Lemma smartSelect_records_every_wait_witness :
  (successCount "X_B" after_first_call + failureCount "X_B" after_first_call
   = successCount "X_B" (new []) + failureCount "X_B" (new [])
     + waits_on "X" "X_B" ["A"; "B"])%nat /\
  successCount "X_B" after_first_call
  = (successCount "X_B" (new []) + waits_on "X" "X_B" (option_list (last ["A"; "B"])))%nat.
Proof.
  apply (smartSelect_records_every_wait dom_waitFor ["B"] "X" "A" ["B"; "C"] 5000 (new [])
           (Some (locator "B")) ["A"; "B"] after_first_call ["B"] "X_B").
  vm_compute. reflexivity.
Defined.

Lemma smartSelect_first_match_witness :
  exists m1,
    smartSelect dom_waitFor ["C"] "X" "A" ["B"; "C"; "D"] 5000 (new [])
      = (Some (locator "C"), ["A"; "B"] ++ ["C"], m1, ["C"]) /\
    selectorCache m1 = <["X" +:+ "_" +:+ "A" := "C"]> (selectorCache (new [])).
Proof.
  apply (smartSelect_first_match dom_waitFor ["C"] ["C"] "X" "A" ["B"; "C"; "D"] 5000
           (new []) ["A"; "B"] "C" ["D"]); reflexivity.
Defined.

Lemma smartSelect_returns_cached_or_first_match_witness :
  (selectorCache after_first_call !! ("X" +:+ "_" +:+ "A") = Some "B" /\
   @nil string = [] /\ after_first_call = after_first_call /\ ["C"] = ["C"]) \/
  (selectorCache after_first_call !! ("X" +:+ "_" +:+ "A") = None /\
   exists pre post,
     "A" :: ["B"; "C"] = pre ++ "B" :: post /\
     [] = pre ++ ["B"] /\
     none_resolves dom_waitFor pre 5000 ["C"] = true /\
     dom_waitFor "B" 5000 (after_waits dom_waitFor pre 5000 ["C"]) = (true, ["C"])).
Proof.
  apply (smartSelect_returns_cached_or_first_match dom_waitFor ["C"] "X" "A" ["B"; "C"] 5000
           after_first_call "B" [] after_first_call ["C"]).
  vm_compute. reflexivity.
Defined.

Lemma smartSelectAny_spec_witness :
  selectorCache (write (Log (found_any_text "X" "B")) (new [])) = selectorCache (new []) /\
  selectorAttempts (write (Log (found_any_text "X" "B")) (new []))
    = selectorAttempts (new []) /\
  exists pre post,
    ["A"; "B"; "C"] = pre ++ "B" :: post /\ ["A"; "B"] = pre ++ ["B"] /\
    none_resolves dom_waitFor pre 5000 ["B"] = true /\
    dom_waitFor "B" 5000 (after_waits dom_waitFor pre 5000 ["B"]) = (true, ["B"]) /\
    logger (write (Log (found_any_text "X" "B")) (new []))
      = logger (new []) ++ [Log (found_any_text "X" "B")].
Proof.
  apply (smartSelectAny_spec dom_waitFor ["B"] "X" ["A"; "B"; "C"] 5000 (new [])
           (Some (locator "B")) ["A"; "B"]
           (write (Log (found_any_text "X" "B")) (new [])) ["B"]).
  reflexivity.
Defined.

Lemma smartSelect_agrees_with_smartSelectAny_witness :
  fst (fst (fst (smartSelect dom_waitFor ["B"] "X" "A" ["B"; "C"] 5000 (new []))))
  = fst (fst (fst (smartSelectAny dom_waitFor ["B"] "X" ("A" :: ["B"; "C"]) 5000
                     after_first_call))) /\
  snd (fst (fst (smartSelect dom_waitFor ["B"] "X" "A" ["B"; "C"] 5000 (new []))))
  = snd (fst (fst (smartSelectAny dom_waitFor ["B"] "X" ("A" :: ["B"; "C"]) 5000
                     after_first_call))) /\
  snd (smartSelect dom_waitFor ["B"] "X" "A" ["B"; "C"] 5000 (new []))
  = snd (smartSelectAny dom_waitFor ["B"] "X" ("A" :: ["B"; "C"]) 5000 after_first_call).
Proof.
  apply (smartSelect_agrees_with_smartSelectAny dom_waitFor ["B"] "X" "A" ["B"; "C"] 5000
           (new []) after_first_call).
  reflexivity.
Defined.

Lemma cache_entry_survives_until_cleared_witness :
  selectorCache
    (fst (run dom_waitFor
            [SmartSelect "X" "A" ["B"; "C"] 5000; GetStats;
             SmartSelectAny "X" ["A"; "C"] 5000; SmartSelect "Y" "A" ["C"] 5000]
            (after_first_call, ["C"])))
    !! "X_A" = Some "B".
Proof.
  apply (cache_entry_survives_until_cleared dom_waitFor
           [SmartSelect "X" "A" ["B"; "C"] 5000; GetStats;
            SmartSelectAny "X" ["A"; "C"] 5000; SmartSelect "Y" "A" ["C"] 5000]
           after_first_call ["C"] "X_A" "B").
  - repeat constructor; discriminate.
  - vm_compute. reflexivity.
Defined.

Lemma cache_entries_have_recorded_success_witness :
  exists elementName primarySelector,
    "X_A" = elementName +:+ "_" +:+ primarySelector /\
    (1 <= successCount (elementName +:+ "_" +:+ "B")
            (fst (run dom_waitFor [SmartSelect "X" "A" ["B"; "C"] 5000] (new [], ["B"]))))%nat.
Proof.
  apply (cache_entries_have_recorded_success dom_waitFor
           [SmartSelect "X" "A" ["B"; "C"] 5000] [] ["B"] "X_A" "B").
  vm_compute. reflexivity.
Defined.

Lemma generateFallbackSelectors_without_quote_witness :
  generateFallbackSelectors "#submit" = [].
Proof.
  apply (generateFallbackSelectors_without_quote "#submit"). reflexivity.
Defined.

Lemma generateFallbackSelectors_sound_witness :
  exists v,
    truthy v = true /\ includes v dquote = false /\
    (("[data-testid=" +:+ dquote +:+ "username" +:+ dquote +:+ "]"
        = "[data-testid=" +:+ dquote +:+ v +:+ dquote +:+ "]" /\
      includes ("input[data-test=" +:+ dquote +:+ "username" +:+ dquote +:+ "]")
        ("data-test=" +:+ dquote +:+ v +:+ dquote) = true) \/
     ("[data-testid=" +:+ dquote +:+ "username" +:+ dquote +:+ "]" = "#" +:+ v /\
      includes ("input[data-test=" +:+ dquote +:+ "username" +:+ dquote +:+ "]")
        ("id=" +:+ dquote +:+ v +:+ dquote) = true) \/
     (("[data-testid=" +:+ dquote +:+ "username" +:+ dquote +:+ "]"
         = "input[name=" +:+ dquote +:+ v +:+ dquote +:+ "]" \/
       "[data-testid=" +:+ dquote +:+ "username" +:+ dquote +:+ "]"
         = "textarea[name=" +:+ dquote +:+ v +:+ dquote +:+ "]") /\
      includes ("input[data-test=" +:+ dquote +:+ "username" +:+ dquote +:+ "]")
        ("name=" +:+ dquote +:+ v +:+ dquote) = true)).
Proof.
  apply (generateFallbackSelectors_sound
           ("input[data-test=" +:+ dquote +:+ "username" +:+ dquote +:+ "]")
           ("[data-testid=" +:+ dquote +:+ "username" +:+ dquote +:+ "]")).
  vm_compute. left. reflexivity.
Defined.

Lemma generateFallbackSelectors_complete_witness :
  In ("[data-testid=" +:+ dquote +:+ "username" +:+ dquote +:+ "]")
     (generateFallbackSelectors
        ("input[" +:+ "data-test=" +:+ dquote +:+ "username" +:+ dquote +:+ "]")) /\
  In ("#" +:+ "username")
     (generateFallbackSelectors
        ("input[" +:+ "id=" +:+ dquote +:+ "username" +:+ dquote +:+ "]")) /\
  In ("input[name=" +:+ dquote +:+ "username" +:+ dquote +:+ "]")
     (generateFallbackSelectors
        ("input[" +:+ "name=" +:+ dquote +:+ "username" +:+ dquote +:+ "]")) /\
  In ("textarea[name=" +:+ dquote +:+ "username" +:+ dquote +:+ "]")
     (generateFallbackSelectors
        ("input[" +:+ "name=" +:+ dquote +:+ "username" +:+ dquote +:+ "]")).
Proof.
  apply (generateFallbackSelectors_complete "input[" "username" "]"); reflexivity.
Defined.
End SelectorInstances.

Section CoursePageInstances.
Import TestRetryManager CoursePage Examples.

Lemma enrollFirstCourseWithRetry_button_missing_witness :
  exists w',
    enrollFirstCourseWithRetry number_text SelectorManager.dom_waitFor click_ok
      SelectorManager.dom_waitFor 3 (fresh_world []) =
      (Rejected (Caught {| ref := 0; message := Some "Add to cart button not found" |}),
       [Call], w') /\
    clicks (output w') = clicks (output (fresh_world [])) /\
    last (output w')
      = Some (ConsoleError "✗ Failed to add to cart: Add to cart button not found").
Proof.
  apply (enrollFirstCourseWithRetry_button_missing number_text
           SelectorManager.dom_waitFor click_ok
           SelectorManager.dom_waitFor 3 (fresh_world [])).
  - lia.
  - reflexivity.
Defined.

Lemma enrollFirstCourse_ignores_cart_badge_witness :
  exists w',
    enrollFirstCourse number_text SelectorManager.dom_waitFor click_ok
      SelectorManager.dom_waitFor
      (fresh_world shop_page) = (inl tt, w') /\
    clicks (output w') = S (clicks (output (fresh_world shop_page))) /\
    last (output w') = Some (ConsoleLog "✓ Item added to cart successfully").
Proof.
  apply (enrollFirstCourse_ignores_cart_badge number_text
           SelectorManager.dom_waitFor click_ok
           SelectorManager.dom_waitFor (fresh_world shop_page) ".inventory_item button"
           (addToCartButton :: addToCartFallbacks)
           (SelectorManager.write
              (SelectorManager.Log
                 (SelectorManager.found_any_text "Add to Cart Button" ".inventory_item button"))
              (SelectorManager.new []))
           shop_page).
  - vm_compute. reflexivity.
  - reflexivity.
Defined.

Lemma enrollFirstCourseWithRetry_click_bound_witness :
  (calls (snd (fst shop_run)) <= Z.to_nat 3)%nat /\
  (clicks (output (snd shop_run))
   <= clicks (output (fresh_world shop_page)) + 2 * Z.to_nat 3)%nat.
Proof.
  apply (enrollFirstCourseWithRetry_click_bound number_text
           SelectorManager.dom_waitFor click_ok
           SelectorManager.dom_waitFor 3 (fresh_world shop_page)
           (fst (fst shop_run)) (snd (fst shop_run)) (snd shop_run)).
  - lia.
  - vm_compute. reflexivity.
Defined.
End CoursePageInstances.
